(** * Secret Sleuth Sessions: session life cycle, assignment, clues and votes

    A shallow embedding of the game logic of the React components
    [GameLobby.tsx], [JoinGameModal.tsx], [GamePlay] (clue filter and
    [nextRound]), [VotingPhase] ([castVote], [endVoting]) and
    [GameResults.tsx], over a model of the remote tables declared in
    [integrations/supabase/types.ts].

    Modelling conventions.
    - A table is the list of its rows, in storage order.  A query
      [.select().eq(col, v)] is a [filter]; [.update(patch).eq('id', v)] is a
      [map] that patches the matching rows; [.insert(row)] appends.
      [.single()] yields its row only when exactly one row matches.
    - JavaScript numbers that hold counts and rounds are integers ([Z]);
      [array.length] is a [nat] injected into [Z] where it meets a number.
    - Strings are [string]; a nullable column is an [option].
    - An outcome of [Math.random()] is a rational [r] with [0 <= r < 1]; the
      product [r * n] is taken exactly.  What [sort] returns under the
      comparator [() => Math.random() - 0.5] is some permutation of its
      input, taken as an argument.
    - [toUpperCase] and [trim] are modelled on ASCII text.
    - Each handler is a function from the component's state and the tables to
      the new tables and the toast it shows (explicit state passing).  The
      gateway calls whose error the handler inspects take the gateway's
      verdict as an argument; the others succeed. *)

From Stdlib Require Import List String Ascii ZArith QArith Qround Bool Lia.
From Stdlib Require Import DecimalString.
From Stdlib Require Import Permutation Sorted.
Import ListNotations.
Local Open Scope string_scope.
Local Open Scope Z_scope.

Set Implicit Arguments.

(* ------------------------------------------------------------------ *)
(** ** JavaScript primitives used by the handlers *)

Module Js.

(** [s] in a boolean position: the empty string is falsy. *)
Definition truthy (s : string) : bool :=
  match s with
  | EmptyString => false
  | String _ _ => true
  end.

(** [a === b] on strings. *)
Definition str_eq (a b : string) : bool := String.eqb a b.

Definition upper_ascii (c : ascii) : ascii :=
  let n := nat_of_ascii c in
  if (97 <=? n)%nat && (n <=? 122)%nat then ascii_of_nat (n - 32) else c.

(** [s.toUpperCase()], on ASCII text. *)
Fixpoint toUpperCase (s : string) : string :=
  match s with
  | EmptyString => EmptyString
  | String c s' => String (upper_ascii c) (toUpperCase s')
  end.

Definition is_space (c : ascii) : bool :=
  let n := nat_of_ascii c in
  (n =? 32)%nat || ((9 <=? n)%nat && (n <=? 13)%nat).

(** [!s.trim()]: nothing but white space. *)
Fixpoint blank (s : string) : bool :=
  match s with
  | EmptyString => true
  | String c s' => is_space c && blank s'
  end.

(** A whole number inside a template literal. *)
Definition number_to_string (z : Z) : string :=
  NilZero.string_of_int (Z.to_int z).

(** [arr[i]] for a number [i]: [undefined] out of range. *)
Definition index {A} (l : list A) (i : Z) : option A :=
  if i <? 0 then None else nth_error l (Z.to_nat i).

(** [Math.floor(r * n)] for an outcome [r] of [Math.random()]. *)
Definition floor_random (r : Q) (n : nat) : Z :=
  Qfloor (r * inject_Z (Z.of_nat n)).

(** The outcomes [Math.random()] can have. *)
Definition unit_interval (r : Q) : Prop := (0 <= r)%Q /\ (r < 1)%Q.

Section Sort.
Variable A : Type.
(** The comparator: negative when its first argument sorts first. *)
Variable cmp : A -> A -> Z.

(** [x] stood before every element of [l] in the input: it goes in front
    of the first element it does not sort after. *)
Fixpoint insert (x : A) (l : list A) : list A :=
  match l with
  | [] => [x]
  | y :: l' => if cmp x y <=? 0 then x :: l else y :: insert x l'
  end.

(** [arr.sort(cmp)] with a consistent comparator: the stable sort. *)
Definition sort (l : list A) : list A := fold_right insert [] l.
End Sort.

End Js.

(* ------------------------------------------------------------------ *)
(** ** The tables ([integrations/supabase/types.ts]) *)

Inductive game_status := waiting | in_progress | voting | completed.
Inductive player_role := detective | murderer.

Definition game_status_eqb (a b : game_status) : bool :=
  match a, b with
  | waiting, waiting | in_progress, in_progress
  | voting, voting | completed, completed => true
  | _, _ => false
  end.

Definition player_role_eqb (a b : player_role) : bool :=
  match a, b with
  | detective, detective | murderer, murderer => true
  | _, _ => false
  end.

Record Story := mkStory {
  story_id_ : string;
  story_title : string;
  min_players : Z;
  max_players : Z;
  total_rounds : Z
}.

Record Character := mkCharacter {
  character_id_ : string;
  character_story_id : string;
  character_name : string
}.

Record Clue := mkClue {
  clue_id : string;
  clue_story_id : string;
  round_number : Z;
  clue_title : string;
  is_for_murderer : option bool
}.

Record Profile := mkProfile {
  profile_id : string;
  username : string
}.

Record GameSession := mkSession {
  session_id_ : string;
  host_id : string;
  session_code : string;
  password : option string;
  status : game_status;
  current_round : Z;
  max_rounds : Z;
  session_story_id : string
}.

Record GamePlayer := mkPlayer {
  player_id : string;
  player_session_id : string;
  user_id : string;
  character_id : string;
  role : player_role
}.

Record Vote := mkVote {
  vote_id : string;
  vote_session_id : string;
  voter_id : string;
  accused_id : string
}.

Record Db := mkDb {
  stories : list Story;
  characters : list Character;
  clues : list Clue;
  profiles : list Profile;
  game_sessions : list GameSession;
  game_players : list GamePlayer;
  votes : list Vote
}.

(** The signed-in user: only [user.id] is read. *)
Record User := mkUser { uid : string }.

(** A toast: [variant: "destructive"] marks an error. *)
Record Toast := mkToast {
  toast_title : string;
  toast_description : string;
  destructive : bool
}.

(* ------------------------------------------------------------------ *)
(** ** The gateway's query builder *)

Module Gateway.

(** [.single()]: the row when exactly one matches, an error otherwise. *)
Definition single {A} (rows : list A) : option A :=
  match rows with
  | [r] => Some r
  | _ => None
  end.

Definition set_role (r : player_role) (p : GamePlayer) : GamePlayer :=
  mkPlayer (player_id p) (player_session_id p) (user_id p)
           (character_id p) r.

(** [from('game_players').update({ role }).eq('id', id)]. *)
Definition update_player_role (id : string) (r : player_role) (db : Db)
  : Db :=
  mkDb (stories db) (characters db) (clues db) (profiles db)
       (game_sessions db)
       (map (fun p => if Js.str_eq (player_id p) id then set_role r p else p)
            (game_players db))
       (votes db).

Definition set_status_round (s : game_status) (n : Z) (g : GameSession)
  : GameSession :=
  mkSession (session_id_ g) (host_id g) (session_code g) (password g)
            s n (max_rounds g) (session_story_id g).

Definition set_status (s : game_status) (g : GameSession) : GameSession :=
  set_status_round s (current_round g) g.

(** [from('game_sessions').update(patch).eq('id', id)]. *)
Definition update_session (id : string) (patch : GameSession -> GameSession)
    (db : Db) : Db :=
  mkDb (stories db) (characters db) (clues db) (profiles db)
       (map (fun g => if Js.str_eq (session_id_ g) id then patch g else g)
            (game_sessions db))
       (game_players db) (votes db).

(** [from('game_players').insert(row)]. *)
Definition insert_player (p : GamePlayer) (db : Db) : Db :=
  mkDb (stories db) (characters db) (clues db) (profiles db)
       (game_sessions db) (game_players db ++ [p]) (votes db).

(** [from('votes').insert(row)]. *)
Definition insert_vote (v : Vote) (db : Db) : Db :=
  mkDb (stories db) (characters db) (clues db) (profiles db)
       (game_sessions db) (game_players db) (votes db ++ [v]).

(** [from('game_players').select('*').eq('session_id', sid)]. *)
Definition players_of (db : Db) (sid : string) : list GamePlayer :=
  filter (fun p => Js.str_eq (player_session_id p) sid) (game_players db).

(** [from('votes').select('*').eq('session_id', sid)]. *)
Definition votes_of (db : Db) (sid : string) : list Vote :=
  filter (fun v => Js.str_eq (vote_session_id v) sid) (votes db).

(** [from('game_sessions').select('*').eq('id', sid).single()]. *)
Definition session_by_id (db : Db) (sid : string) : option GameSession :=
  single (filter (fun g => Js.str_eq (session_id_ g) sid) (game_sessions db)).

(** [from('game_players').delete().eq('id', id)]. *)
Definition delete_player (id : string) (db : Db) : Db :=
  mkDb (stories db) (characters db) (clues db) (profiles db)
       (game_sessions db)
       (filter (fun p => negb (Js.str_eq (player_id p) id)) (game_players db))
       (votes db).

(** [from('game_sessions').insert(row)]. *)
Definition insert_session (g : GameSession) (db : Db) : Db :=
  mkDb (stories db) (characters db) (clues db) (profiles db)
       (game_sessions db ++ [g]) (game_players db) (votes db).

End Gateway.

(* ------------------------------------------------------------------ *)
(** ** GamePlay: the clue filter and [nextRound] *)

Module GamePlay.

Record State := mkState {
  session : GameSession;
  player : GamePlayer;
  user : User;
  story : option Story
}.

Definition isHost (st : State) : bool :=
  Js.str_eq (host_id (session st)) (uid (user st)).

Definition isMurderer (st : State) : bool :=
  player_role_eqb (role (player st)) murderer.

Definition isVotingRound (st : State) : bool :=
  current_round (session st) =? max_rounds (session st).

(** [clue.is_for_murderer] in a boolean position: [null] is falsy. *)
Definition flagged (c : Clue) : bool :=
  match is_for_murderer c with
  | Some b => b
  | None => false
  end.

(** The [isVisible] field [fetchGameData] computes for a clue. *)
Definition isVisible (st : State) (c : Clue) : bool :=
  (round_number c <=? current_round (session st))
  && (if flagged c then isMurderer st else negb (flagged c)).

(** The rows [fetchGameData] receives:
    [.eq('story_id', story.id).lte('round_number', session.current_round)]. *)
Definition cluesData (st : State) (s : Story) (db : Db) : list Clue :=
  filter (fun c => Js.str_eq (clue_story_id c) (story_id_ s)
                   && (round_number c <=? current_round (session st)))
         (clues db).

(** The [clues] state after [fetchGameData]: each row with its [isVisible];
    it stays empty while no story is loaded. *)
Definition fetchGameData_clues (st : State) (db : Db)
  : list (Clue * bool) :=
  match story st with
  | Some s => map (fun c => (c, isVisible st c)) (cluesData st s db)
  | None => []
  end.

(** What the page lists: [clues.filter(clue => clue.isVisible)]. *)
Definition visibleClues (st : State) (db : Db) : list Clue :=
  map fst (filter snd (fetchGameData_clues st db)).

(** [nextRound]: the new tables and the toast, if any. *)
Definition nextRound (st : State) (db : Db) : Db * option Toast :=
  if negb (isHost st) then (db, None)
  else
    let newRound := current_round (session st) + 1 in
    let newStatus :=
      if newRound =? max_rounds (session st) then voting
      else status (session st) in
    let db' :=
      Gateway.update_session (session_id_ (session st))
        (Gateway.set_status_round newStatus newRound) db in
    (db',
     Some (if game_status_eqb newStatus voting
           then mkToast "Voting Phase!"
                  "Time to vote for who you think is the murderer" false
           else mkToast "Next Round"
                  ("Round " ++ Js.number_to_string newRound ++ " has begun")
                  false)).

(** The handler of the session subscription: [setSession(payload.new)]. *)
Definition on_session_update (st : State) (g : GameSession) : State :=
  mkState g (player st) (user st) (story st).

(** What the component returns: the results once [completed], the voting
    page while [voting], its own page otherwise. *)
Inductive Screen := ResultsPage | VotingPage | PlayPage.

Definition screen (st : State) : Screen :=
  if game_status_eqb (status (session st)) completed then ResultsPage
  else if game_status_eqb (status (session st)) voting then VotingPage
  else PlayPage.

(** The button of [nextRound] is rendered under
    [{isHost && !isVotingRound && ...}]. *)
Definition next_button_rendered (st : State) : bool :=
  isHost st && negb (isVotingRound st).

(** Its label. *)
Definition next_button_label (st : State) : string :=
  if current_round (session st) =? max_rounds (session st) - 1
  then "Start Voting" else "Next Round".

(** The host presses the button and the page receives the change of its
    session row. *)
Definition click_next (room : State * Db) : State * Db :=
  let (st, db) := room in
  if isHost st then
    let db' := fst (nextRound st db) in
    match Gateway.session_by_id db' (session_id_ (session st)) with
    | Some g => (on_session_update st g, db')
    | None => (st, db')
    end
  else room.

(** A press on the next-round button: it runs [nextRound] where the button
    is rendered. *)
Definition press_next (st : State) (db : Db) : Db * option Toast :=
  if next_button_rendered st then nextRound st db else (db, None).

End GamePlay.

(* ------------------------------------------------------------------ *)
(** ** The gateway's answer to an insert *)

Inductive Verdict :=
| Accepted (new_id : string)   (* the row was stored under this id *)
| Refused (message : string).  (* [error] was set *)

(** A player row as the pages hold it, with its profile and character. *)
Record PlayerWithDetails := mkDetails {
  base : GamePlayer;
  profile : Profile;
  character : Character
}.

(* ------------------------------------------------------------------ *)
(** ** GameLobby: [fetchGameData], [startGame] and the start control *)

Module GameLobby.

Record State := mkState {
  session : GameSession;
  player : GamePlayer;
  user : User;
  story : option Story;
  players : list PlayerWithDetails
}.

Definition isHost (st : State) : bool :=
  Js.str_eq (host_id (session st)) (uid (user st)).

(** [.in('id', ids)]. *)
Definition id_in (ids : list string) (id : string) : bool :=
  existsb (Js.str_eq id) ids.

(** The profile and character [fetchGameData] finds for a player row. *)
Definition details (db : Db) (playersData : list GamePlayer)
    (p : GamePlayer) : option PlayerWithDetails :=
  let userIds := map user_id playersData in
  let characterIds := map character_id playersData in
  let profiles_ := filter (fun pr => id_in userIds (profile_id pr))
                          (profiles db) in
  let characters_ := filter (fun c => id_in characterIds (character_id_ c))
                            (characters db) in
  match find (fun pr => Js.str_eq (profile_id pr) (user_id p)) profiles_,
        find (fun c => Js.str_eq (character_id_ c) (character_id p))
             characters_ with
  | Some pr, Some c => Some (mkDetails p pr c)
  | _, _ => None
  end.

(** [playersWithDetails]: the session's rows, those without a profile or a
    character dropped. *)
Definition playersWithDetails (db : Db) (sid : string)
  : list PlayerWithDetails :=
  let playersData := Gateway.players_of db sid in
  flat_map (fun p => match details db playersData p with
                     | Some d => [d]
                     | None => []
                     end) playersData.

(** The state after [fetchGameData]. *)
Definition fetchGameData (st : State) (db : Db) : State :=
  let storyData :=
    Gateway.single
      (filter (fun s => Js.str_eq (story_id_ s)
                                  (session_story_id (session st)))
              (stories db)) in
  mkState (session st) (player st) (user st)
          (match storyData with Some s => Some s | None => story st end)
          (playersWithDetails db (session_id_ (session st))).

(** [story?.min_players || 3]. *)
Definition min_required (st : State) : Z :=
  match story st with
  | Some s => if min_players s =? 0 then 3 else min_players s
  | None => 3
  end.

(** The [for] loop of [startGame], from index [i] on. *)
Fixpoint assign_roles (murdererIndex i : Z)
    (shuffledPlayers : list PlayerWithDetails) (db : Db) : Db :=
  match shuffledPlayers with
  | [] => db
  | playerToUpdate :: rest =>
      let role_ := if i =? murdererIndex then murderer else detective in
      assign_roles murdererIndex (i + 1) rest
        (Gateway.update_player_role (player_id (base playerToUpdate))
                                    role_ db)
  end.

Definition not_enough_players (st : State) : Toast :=
  mkToast "Not Enough Players"
    ("Need at least " ++ Js.number_to_string (min_required st)
       ++ " players to start") true.

Definition mystery_begins : Toast :=
  mkToast "Mystery Begins!" "The investigation has started" false.

(** [startGame].  [shuffle] is what [[...players].sort(() => Math.random()
    - 0.5)] returns and [r] the outcome of the second [Math.random()]. *)
Definition startGame
    (shuffle : list PlayerWithDetails -> list PlayerWithDetails) (r : Q)
    (st : State) (db : Db) : Db * Toast :=
  if Z.of_nat (List.length (players st)) <? min_required st
  then (db, not_enough_players st)
  else
    let shuffledPlayers := shuffle (players st) in
    let murdererIndex := Js.floor_random r (List.length shuffledPlayers) in
    let db1 := assign_roles murdererIndex 0 shuffledPlayers db in
    let db2 :=
      Gateway.update_session (session_id_ (session st))
        (Gateway.set_status_round in_progress 1) db1 in
    (db2, mystery_begins).

(** The page renders the start button under [{isHost && ...}]. *)
Definition start_button_rendered (st : State) : bool := isHost st.

(** The button's [disabled] attribute, [loading] apart. *)
Definition start_button_disabled (st : State) : bool :=
  Z.of_nat (List.length (players st)) <? min_required st.

(** [leaveGame]: the row of the page's player is deleted. *)
Definition leaveGame (st : State) (db : Db) : Db * Toast :=
  (Gateway.delete_player (player_id (player st)) db,
   mkToast "Left Investigation" "You have left the game" false).

(** The handler of the session subscription, on an [UPDATE]. *)
Definition on_session_update (st : State) (g : GameSession) : State :=
  mkState g (player st) (user st) (story st) (players st).

(** The component returns [<GamePlay>] instead of the lobby when the status
    is [in_progress] or [voting]. *)
Definition shows_gameplay (st : State) : bool :=
  game_status_eqb (status (session st)) in_progress
  || game_status_eqb (status (session st)) voting.

(** A press on the start button: it runs [startGame] where the button is
    rendered and not disabled. *)
Definition press_start
    (shuffle : list PlayerWithDetails -> list PlayerWithDetails) (r : Q)
    (st : State) (db : Db) : Db * option Toast :=
  if start_button_rendered st && negb (start_button_disabled st)
  then (fst (startGame shuffle r st db), Some (snd (startGame shuffle r st db)))
  else (db, None).

End GameLobby.

(* ------------------------------------------------------------------ *)
(** ** JoinGameModal: [joinGame] *)

Module JoinGameModal.

Record State := mkState {
  sessionCode : string;
  password_ : string;
  user : User
}.

(** What [joinGame] leaves behind: the tables, the toast, and the arguments
    of [onGameJoined] when it is called. *)
Record Result := mkResult {
  db_after : Db;
  toast : Toast;
  joined : option (GameSession * GamePlayer)
}.

Definition error (description : string) : Toast :=
  mkToast "Error" description true.

Definition enter_code := error "Please enter a session code".
Definition game_not_found :=
  error "Game not found. Please check the session code.".
Definition incorrect_password := error "Incorrect password".
Definition already_in_progress := error "This game is already in progress".
Definition game_full := error "This game is full".
Definition no_characters := error "No characters available".
Definition already_joined :=
  mkToast "Already Joined" "You're already in this game" false.
Definition investigation_joined :=
  mkToast "Investigation Joined!" "Welcome to the mystery" false.

(** [session.password && session.password !== password]. *)
Definition password_mismatch (s : GameSession) (supplied : string) : bool :=
  match password s with
  | Some pw => Js.truthy pw && negb (Js.str_eq pw supplied)
  | None => false
  end.

(** [.eq('session_code', sessionCode.toUpperCase()).single()]. *)
Definition find_session (db : Db) (code : string) : option GameSession :=
  Gateway.single
    (filter (fun s => Js.str_eq (session_code s) (Js.toUpperCase code))
            (game_sessions db)).

(** [.eq('session_id', session.id).eq('user_id', user.id).single()]. *)
Definition existingPlayer (db : Db) (s : GameSession) (u : User)
  : option GamePlayer :=
  Gateway.single
    (filter (fun p => Js.str_eq (player_session_id p) (session_id_ s)
                      && Js.str_eq (user_id p) (uid u))
            (game_players db)).

(** [from('stories').select('max_players').eq('id', story_id).single()]. *)
Definition story_of (db : Db) (s : GameSession) : option Story :=
  Gateway.single
    (filter (fun st => Js.str_eq (story_id_ st) (session_story_id s))
            (stories db)).

(** [players && story && players.length >= story.max_players]. *)
Definition is_full (players : list GamePlayer) (story : option Story)
  : bool :=
  match story with
  | Some st => max_players st <=? Z.of_nat (List.length players)
  | None => false
  end.

(** [characters.filter(c => !takenCharacterIds.includes(c.id))] over the
    story's characters. *)
Definition availableCharacters (db : Db) (s : GameSession)
    (players : list GamePlayer) : list Character :=
  let characters_ :=
    filter (fun c => Js.str_eq (character_story_id c) (session_story_id s))
           (characters db) in
  let takenCharacterIds := map character_id players in
  filter (fun c => negb (existsb (Js.str_eq (character_id_ c))
                                 takenCharacterIds))
         characters_.

(** [joinGame].  [r] is the outcome of [Math.random()] and [verdict] the
    gateway's answer to the insert. *)
Definition joinGame (r : Q) (verdict : Verdict) (st : State) (db : Db)
  : Result :=
  if Js.blank (sessionCode st) then mkResult db enter_code None
  else
    match find_session db (sessionCode st) with
    | None => mkResult db game_not_found None
    | Some s =>
      if password_mismatch s (password_ st)
      then mkResult db incorrect_password None
      else if negb (game_status_eqb (status s) waiting)
      then mkResult db already_in_progress None
      else
        match existingPlayer db s (user st) with
        | Some p => mkResult db already_joined (Some (s, p))
        | None =>
          let players := Gateway.players_of db (session_id_ s) in
          if is_full players (story_of db s)
          then mkResult db game_full None
          else
            let available := availableCharacters db s players in
            if (List.length available =? 0)%nat
            then mkResult db no_characters None
            else
              match Js.index available
                      (Js.floor_random r (List.length available)) with
              | None =>
                  (* [randomCharacter.id] throws, the [catch] reports *)
                  mkResult db
                    (error "Cannot read properties of undefined") None
              | Some randomCharacter =>
                match verdict with
                | Refused message => mkResult db (error message) None
                | Accepted new_id =>
                  let p := mkPlayer new_id (session_id_ s) (uid (user st))
                             (character_id_ randomCharacter) detective in
                  mkResult (Gateway.insert_player p db)
                           investigation_joined (Some (s, p))
                end
              end
        end
    end.

End JoinGameModal.

(* ------------------------------------------------------------------ *)
(** ** CreateGameModal: [createGame] *)

(** The gateway's answer to the insert of a session: the id it gave the row
    and the defaults it stored for the columns the insert leaves out. *)
Inductive SessionVerdict :=
| SessionStored (new_id : string) (status0 : game_status) (round0 : Z)
| SessionRefused (message : string).

Module CreateGameModal.

Record State := mkState {
  selectedStory : option Story;
  password_ : string;
  user : User
}.

(** What [createGame] leaves behind: the tables, the toast if any, and the
    arguments of [onGameCreated] when it is called. *)
Record Result := mkResult {
  db_after : Db;
  toast : option Toast;
  created : option (GameSession * GamePlayer)
}.

Definition error (description : string) : Toast :=
  mkToast "Error" description true.

Definition mystery_created (sessionCode : string) : Toast :=
  mkToast "Mystery Created!" ("Session code: " ++ sessionCode) false.

(** [password || null]. *)
Definition stored_password (pw : string) : option string :=
  if Js.truthy pw then Some pw else None.

(** [createGame].  [code] is the answer of the [generate_session_code]
    procedure, [stored] and [verdict] the gateway's answers to the two
    inserts, and [r] the outcome of [Math.random()]. *)
Definition createGame (r : Q) (code : Verdict) (stored : SessionVerdict)
    (verdict : Verdict) (st : State) (db : Db) : Result :=
  match selectedStory st with
  | None => mkResult db None None
  | Some story =>
    match code with
    | Refused message => mkResult db (Some (error message)) None
    | Accepted sessionCode =>
      match stored with
      | SessionRefused message => mkResult db (Some (error message)) None
      | SessionStored new_id status0 round0 =>
        let session :=
          mkSession new_id (uid (user st)) sessionCode
                    (stored_password (password_ st)) status0 round0
                    (total_rounds story) (story_id_ story) in
        let db1 := Gateway.insert_session session db in
        let characters_ :=
          filter (fun c => Js.str_eq (character_story_id c) (story_id_ story))
                 (characters db1) in
        match Js.index characters_
                (Js.floor_random r (List.length characters_)) with
        | None =>
            (* [randomCharacter.id] throws; the session row stays *)
            mkResult db1
              (Some (error "Cannot read properties of undefined")) None
        | Some randomCharacter =>
          match verdict with
          | Refused message => mkResult db1 (Some (error message)) None
          | Accepted player_id_ =>
            let p := mkPlayer player_id_ new_id (uid (user st))
                       (character_id_ randomCharacter) detective in
            mkResult (Gateway.insert_player p db1)
                     (Some (mystery_created sessionCode))
                     (Some (session, p))
          end
        end
      end
    end
  end.

End CreateGameModal.

(* ------------------------------------------------------------------ *)
(** ** The vote tally, computed alike by VotingPhase and GameResults *)

Module Tally.

Record Entry := mkEntry {
  player : PlayerWithDetails;
  voteCount : nat
}.

(** [votes.filter(v => v.accused_id === p.user_id).length]. *)
Definition count_for (votes_ : list Vote) (p : PlayerWithDetails) : nat :=
  List.length
    (filter (fun v => Js.str_eq (accused_id v) (user_id (base p))) votes_).

(** [(a, b) => b.voteCount - a.voteCount]. *)
Definition by_votes_desc (a b : Entry) : Z :=
  Z.of_nat (voteCount b) - Z.of_nat (voteCount a).

(** [players.map(p => ({ player: p, voteCount: ... })).sort(...)]. *)
Definition voteCounts (players : list PlayerWithDetails)
    (votes_ : list Vote) : list Entry :=
  Js.sort by_votes_desc
    (map (fun p => mkEntry p (count_for votes_ p)) players).

End Tally.

(* ------------------------------------------------------------------ *)
(** ** VotingPhase: [fetchVotes], [castVote], [endVoting] *)

Module VotingPhase.

Record State := mkState {
  session : GameSession;
  players : list PlayerWithDetails;
  user : User;
  votes_ : list Vote;
  userVote : option string
}.

Definition isHost (st : State) : bool :=
  Js.str_eq (host_id (session st)) (uid (user st)).

(** [userVote] in a boolean position. *)
Definition has_voted (st : State) : bool :=
  match userVote st with
  | Some a => Js.truthy a
  | None => false
  end.

(** [fetchVotes] with a successful query; [userVote] is set only when a
    vote of the user is found. *)
Definition fetchVotes (st : State) (db : Db) : State :=
  let data := Gateway.votes_of db (session_id_ (session st)) in
  let myVote :=
    find (fun v => Js.str_eq (voter_id v) (uid (user st))) data in
  mkState (session st) (players st) (user st) data
          (match myVote with
           | Some v => Some (accused_id v)
           | None => userVote st
           end).

Definition already_voted : Toast :=
  mkToast "Already Voted" "You have already cast your vote" true.
Definition vote_cast : Toast :=
  mkToast "Vote Cast" "Your vote has been recorded" false.

(** [castVote(accusedId)]; [verdict] is the gateway's answer to the
    insert. *)
Definition castVote (accusedId : string) (verdict : Verdict)
    (st : State) (db : Db) : State * Db * Toast :=
  if has_voted st then (st, db, already_voted)
  else
    match verdict with
    | Refused message => (st, db, mkToast "Error" message true)
    | Accepted new_id =>
        let v := mkVote new_id (session_id_ (session st)) (uid (user st))
                        accusedId in
        (mkState (session st) (players st) (user st) (votes_ st)
                 (Some accusedId),
         Gateway.insert_vote v db, vote_cast)
    end.

(** [endVoting]. *)
Definition endVoting (st : State) (db : Db) : Db * option Toast :=
  if negb (isHost st) then (db, None)
  else
    (Gateway.update_session (session_id_ (session st))
       (Gateway.set_status completed) db,
     Some (mkToast "Voting Complete!" "Time to reveal the truth..." false)).

Definition voteCounts (st : State) : list Tally.Entry :=
  Tally.voteCounts (players st) (votes_ st).

(** The click handler of a player card: [canVote && castVote(p.user_id)]. *)
Definition canVote (st : State) (p : PlayerWithDetails) : bool :=
  negb (has_voted st) && negb (Js.str_eq (user_id (base p)) (uid (user st))).

(** A click on the card of player [p]: [canVote && castVote(p.user_id)]. *)
Definition card_click (p : PlayerWithDetails) (verdict : Verdict)
    (st : State) (db : Db) : State * Db * option Toast :=
  if canVote st p
  then let '(st', db', t) := castVote (user_id (base p)) verdict st db in
       (st', db', Some t)
  else (st, db, None).

(** [totalVotes] and [playersCount] of the header. *)
Definition totalVotes (st : State) : nat := List.length (votes_ st).
Definition playersCount (st : State) : nat := List.length (players st).

(** The button of [endVoting] is rendered under [{isHost && ...}]. *)
Definition end_button_rendered (st : State) : bool := isHost st.

(** A press on it. *)
Definition press_end (st : State) (db : Db) : Db * option Toast :=
  if end_button_rendered st then endVoting st db else (db, None).

End VotingPhase.

(* ------------------------------------------------------------------ *)
(** ** GameResults: the outcome *)

Module GameResults.

Record State := mkState {
  session : GameSession;
  players : list PlayerWithDetails;
  user : User;
  votes_ : list Vote
}.

(** [fetchVotes] with a successful query. *)
Definition fetchVotes (st : State) (db : Db) : State :=
  mkState (session st) (players st) (user st)
          (Gateway.votes_of db (session_id_ (session st))).

Definition murderer_ (st : State) : option PlayerWithDetails :=
  find (fun p => player_role_eqb (role (base p)) murderer) (players st).

Definition voteCounts (st : State) : list Tally.Entry :=
  Tally.voteCounts (players st) (votes_ st).

(** [voteCounts[0]]. *)
Definition mostVoted (st : State) : option Tally.Entry :=
  Js.index (voteCounts st) 0.

(** [mostVoted?.player.role === 'murderer' && mostVoted.voteCount > 0]. *)
Definition detectivesWon (st : State) : bool :=
  match mostVoted st with
  | None => false
  | Some mv =>
      player_role_eqb (role (base (Tally.player mv))) murderer
      && (0 <? Z.of_nat (Tally.voteCount mv))
  end.

(** The headline of the page: "Detectives Win!" or "Murderer Wins!". *)
Inductive Outcome := DetectivesWin | MurdererWins.

Definition outcome (st : State) : Outcome :=
  if detectivesWon st then DetectivesWin else MurdererWins.

End GameResults.

(* ------------------------------------------------------------------ *)
(** ** GameDashboard: the game in course and the page shown *)

Module GameDashboard.

Record State := mkState {
  user : User;
  currentSession : option GameSession;
  currentPlayer : option GamePlayer
}.

(** The rows [checkCurrentGame] asks for: the user's player rows, each with
    its session embedded through [session_id] ([!inner]), the session not
    [completed]. *)
Definition active_games (db : Db) (u : User)
  : list (GamePlayer * GameSession) :=
  flat_map
    (fun p =>
       if Js.str_eq (user_id p) (uid u) then
         match Gateway.session_by_id db (player_session_id p) with
         | Some g => if game_status_eqb (status g) completed then []
                     else [(p, g)]
         | None => []
         end
       else [])
    (game_players db).

(** [checkCurrentGame]: the state is set when [.single()] yields a row. *)
Definition checkCurrentGame (st : State) (db : Db) : State :=
  match Gateway.single (active_games db (user st)) with
  | Some (p, g) => mkState (user st) (Some g) (Some p)
  | None => st
  end.

Definition handleGameJoined (st : State) (g : GameSession) (p : GamePlayer)
  : State :=
  mkState (user st) (Some g) (Some p).

Definition handleLeaveGame (st : State) : State :=
  mkState (user st) None None.

(** [currentSession && currentPlayer]: the lobby is returned. *)
Definition shows_lobby (st : State) : bool :=
  match currentSession st, currentPlayer st with
  | Some _, Some _ => true
  | _, _ => false
  end.

End GameDashboard.

(* ------------------------------------------------------------------ *)
(** ** The page on screen

    GameLobby returns GamePlay for a session under way, and GamePlay, which
    keeps a copy of the session of its own, returns the voting or the results
    page for it. *)

Module Routing.

Inductive Page := Lobby | Play | Voting | Results.

Definition page (lobby : GameLobby.State) (play : GamePlay.State) : Page :=
  if GameLobby.shows_gameplay lobby then
    match GamePlay.screen play with
    | GamePlay.ResultsPage => Results
    | GamePlay.VotingPage => Voting
    | GamePlay.PlayPage => Play
    end
  else Lobby.

End Routing.

(* ------------------------------------------------------------------ *)
(** ** Several voting pages over the same tables

    Every VotingPhase page subscribes to the changes of the [votes] rows of
    its session ([setupRealtimeSubscriptions]) and answers each with
    [fetchVotes].  A room holds the open pages and the tables; a click on
    one page runs [castVote] there and, when a row was stored, the
    subscribed pages of that session refetch before the next click. *)

Module VotingRoom.

Definition Room : Type := list VotingPhase.State * Db.

Record Click := mkClick {
  page : nat;
  accusedId : string;
  verdict : Verdict
}.

Fixpoint replace (i : nat) (c : VotingPhase.State)
    (pages : list VotingPhase.State) : list VotingPhase.State :=
  match pages, i with
  | [], _ => []
  | _ :: rest, O => c :: rest
  | c0 :: rest, S j => c0 :: replace j c rest
  end.

(** The change handler of the pages subscribed with
    [filter: session_id=eq.<sid>]. *)
Definition notify (sid : string) (db : Db)
    (pages : list VotingPhase.State) : list VotingPhase.State :=
  map (fun c => if Js.str_eq (session_id_ (VotingPhase.session c)) sid
                then VotingPhase.fetchVotes c db else c)
      pages.

Definition click (e : Click) (room : Room) : Room :=
  let (pages, db) := room in
  match nth_error pages (page e) with
  | None => room
  | Some c =>
      let '(c', db', _) :=
        VotingPhase.castVote (accusedId e) (verdict e) c db in
      let pages' := replace (page e) c' pages in
      if (List.length (votes db') =? List.length (votes db))%nat
      then (pages', db')
      else (notify (session_id_ (VotingPhase.session c)) db' pages', db')
  end.

Definition run (clicks : list Click) (room : Room) : Room :=
  fold_left (fun rm e => click e rm) clicks room.


End VotingRoom.

(* ------------------------------------------------------------------ *)
(** ** Properties of the tables *)

(** [id] is the primary key of [game_players]. *)
Definition players_pk (db : Db) : Prop :=
  NoDup (map player_id (game_players db)).

(** No two players of a session hold the same character. *)
Definition characters_unique (db : Db) : Prop :=
  forall sid, NoDup (map character_id (Gateway.players_of db sid)).



Definition is_murderer (p : GamePlayer) : bool :=
  player_role_eqb (role p) murderer.

Definition is_detective (p : GamePlayer) : bool :=
  player_role_eqb (role p) detective.

(** What the loop of [startGame] makes of one stored row: every listed
    player whose id the row bears patches its role, in turn. *)
Fixpoint relabel (murdererIndex i : Z) (l : list PlayerWithDetails)
    (p : GamePlayer) : GamePlayer :=
  match l with
  | [] => p
  | d :: rest =>
      relabel murdererIndex (i + 1) rest
        (if Js.str_eq (player_id p) (player_id (base d))
         then Gateway.set_role
                (if i =? murdererIndex then murderer else detective) p
         else p)
  end.

(** The row [fetchGameData] of the lobby keeps: it has a profile and a
    character. *)
Definition has_details (db : Db) (sid : string) (p : GamePlayer) : bool :=
  match GameLobby.details db (Gateway.players_of db sid) p with
  | Some _ => true
  | None => false
  end.

(** [joinGame] gets as far as the character pool of session [s]: the code
    is not blank and resolves to [s], the password passes, [s] is waiting,
    the user is no member yet and the session is not full. *)
Definition reaches_pool (st : JoinGameModal.State) (db : Db)
    (s : GameSession) : Prop :=
  Js.blank (JoinGameModal.sessionCode st) = false
  /\ JoinGameModal.find_session db (JoinGameModal.sessionCode st) = Some s
  /\ JoinGameModal.password_mismatch s (JoinGameModal.password_ st) = false
  /\ status s = waiting
  /\ JoinGameModal.existingPlayer db s (JoinGameModal.user st) = None
  /\ JoinGameModal.is_full (Gateway.players_of db (session_id_ s))
                           (JoinGameModal.story_of db s) = false.

(** [e] leads [es]: it has the most votes, and more than any entry listed
    before it. *)
Definition leads (es : list Tally.Entry) (i : nat) (e : Tally.Entry) : Prop :=
  nth_error es i = Some e
  /\ (forall e', In e' es -> (Tally.voteCount e' <= Tally.voteCount e)%nat)
  /\ (forall j e', (j < i)%nat -> nth_error es j = Some e'
                   -> (Tally.voteCount e' < Tally.voteCount e)%nat).



(** The votes that accuse the user of player [p]. *)
Definition votes_received (vs : list Vote) (p : PlayerWithDetails) : nat :=
  count_occ string_dec (map accused_id vs) (user_id (base p)).




(* ------------------------------------------------------------------ *)
(** ** Sample tables and pages *)

Module Sample.

Definition manor : Story := mkStory "st1" "Manor" 3 8 3.

Definition public_clue : Clue := mkClue "c1" "st1" 1 "Footprints" (Some false).
Definition private_clue : Clue := mkClue "c2" "st1" 1 "Alibi" (Some true).
Definition late_clue : Clue := mkClue "c3" "st1" 2 "Letter" None.

Definition butler : Character := mkCharacter "ch1" "st1" "Butler".
Definition cook : Character := mkCharacter "ch2" "st1" "Cook".
Definition maid : Character := mkCharacter "ch3" "st1" "Maid".

Definition ann : Profile := mkProfile "u1" "ann".
Definition bob : Profile := mkProfile "u2" "bob".
Definition cat : Profile := mkProfile "u3" "cat".

Definition lobby : GameSession :=
  mkSession "s1" "u1" "ABCD" (Some "pw") waiting 0 3 "st1".
Definition playing : GameSession :=
  mkSession "s1" "u1" "ABCD" (Some "pw") in_progress 1 3 "st1".
Definition polling : GameSession :=
  mkSession "s1" "u1" "ABCD" (Some "pw") voting 3 3 "st1".

Definition p1 : GamePlayer := mkPlayer "p1" "s1" "u1" "ch1" detective.
Definition p2 : GamePlayer := mkPlayer "p2" "s1" "u2" "ch2" detective.
Definition p3 : GamePlayer := mkPlayer "p3" "s1" "u3" "ch3" detective.
Definition p2m : GamePlayer := mkPlayer "p2" "s1" "u2" "ch2" murderer.

Definition d1 := mkDetails p1 ann butler.
Definition d2 := mkDetails p2 bob cook.
Definition d3 := mkDetails p3 cat maid.
Definition d2m := mkDetails p2m bob cook.

Definition tables (s : GameSession) (ps : list GamePlayer)
    (vs : list Vote) : Db :=
  mkDb [manor] [butler; cook; maid] [public_clue; private_clue; late_clue]
       [ann; bob; cat] [s] ps vs.

(** Lobby pages over [tables lobby [p1; p2; p3] []]: the host's, a
    guest's, and the host's before the third player has joined. *)
Definition host_lobby : GameLobby.State :=
  GameLobby.mkState lobby p1 (mkUser "u1") (Some manor) [d1; d2; d3].
Definition guest_lobby : GameLobby.State :=
  GameLobby.mkState lobby p2 (mkUser "u2") (Some manor) [d1; d2; d3].
Definition short_lobby : GameLobby.State :=
  GameLobby.mkState lobby p1 (mkUser "u1") (Some manor) [d1; d2].

Definition waiting_tables : Db := tables lobby [p1; p2; p3] [].

(** A story for exactly three players, and a session of it that is full. *)
Definition trio : Story := mkStory "st1" "Manor" 3 3 3.
Definition full_tables : Db :=
  mkDb [trio] [butler; cook; maid] [public_clue; private_clue; late_clue]
       [ann; bob; cat] [lobby] [p1; p2; p3] [].

(** Two seats taken at the table of the manor. *)
Definition open_tables : Db := tables lobby [p1; p2] [].

(** The voting pages of ann and bob, as mounted over [polling_tables]. *)
Definition polling_tables : Db := tables polling [p1; p2m; p3] [].
Definition ann_votes : VotingPhase.State :=
  VotingPhase.mkState polling [d1; d2m; d3] (mkUser "u1") [] None.
Definition bob_votes : VotingPhase.State :=
  VotingPhase.mkState polling [d1; d2m; d3] (mkUser "u2") [] None.

End Sample.

(* ------------------------------------------------------------------ *)
(** ** Equality tests *)

Lemma str_eq_true (a b : string) : Js.str_eq a b = true <-> a = b.
Proof. unfold Js.str_eq. apply String.eqb_eq. Qed.

Lemma str_eq_false (a b : string) : Js.str_eq a b = false <-> a <> b.
Proof. unfold Js.str_eq. apply String.eqb_neq. Qed.

Lemma str_eq_refl (a : string) : Js.str_eq a a = true.
Proof. apply str_eq_true. reflexivity. Qed.

Lemma str_eq_sym (a b : string) : Js.str_eq a b = Js.str_eq b a.
Proof. unfold Js.str_eq. apply String.eqb_sym. Qed.

Lemma is_murderer_true (p : GamePlayer) :
  is_murderer p = true <-> role p = murderer.
Proof. unfold is_murderer. destruct (role p); simpl; split; congruence. Qed.

Lemma is_detective_true (p : GamePlayer) :
  is_detective p = true <-> role p = detective.
Proof. unfold is_detective. destruct (role p); simpl; split; congruence. Qed.

Lemma game_status_eqb_true (a b : game_status) :
  game_status_eqb a b = true <-> a = b.
Proof. destruct a, b; simpl; split; congruence. Qed.

(* ------------------------------------------------------------------ *)
(** ** The clue filter *)

Lemma flagged_true (c : Clue) :
  GamePlay.flagged c = true <-> is_for_murderer c = Some true.
Proof.
  unfold GamePlay.flagged.
  destruct (is_for_murderer c) as [[|]|]; split; congruence.
Qed.

Lemma isVisible_spec (st : GamePlay.State) (c : Clue) :
  GamePlay.isVisible st c = true <->
  round_number c <= current_round (GamePlay.session st)
  /\ (is_for_murderer c = Some true -> role (GamePlay.player st) = murderer).
Proof.
  unfold GamePlay.isVisible, GamePlay.isMurderer.
  rewrite andb_true_iff, Z.leb_le.
  destruct (GamePlay.flagged c) eqn:F.
  - apply flagged_true in F.
    destruct (role (GamePlay.player st)); simpl; intuition congruence.
  - simpl. assert (is_for_murderer c <> Some true).
    { intro H. apply flagged_true in H. congruence. }
    intuition congruence.
Qed.

Lemma visibleClues_In (st : GamePlay.State) (db : Db) (c : Clue) :
  In c (GamePlay.visibleClues st db) <->
  exists s, GamePlay.story st = Some s
            /\ In c (GamePlay.cluesData st s db)
            /\ GamePlay.isVisible st c = true.
Proof.
  unfold GamePlay.visibleClues, GamePlay.fetchGameData_clues.
  destruct (GamePlay.story st) as [s|].
  - rewrite in_map_iff. split.
    + intros [[c' v] [E H]]. simpl in E. subst c'.
      apply filter_In in H. destruct H as [H V]. simpl in V. subst v.
      apply in_map_iff in H. destruct H as [c' [E H]].
      injection E as E1 E2. subst c'. exists s. auto.
    + intros [s' [E [H V]]]. inversion E; subst s'.
      exists (c, true). split; [reflexivity|].
      apply filter_In. split; [|reflexivity].
      apply in_map_iff. exists c. rewrite V. auto.
  - simpl. split; [tauto|]. intros [s [E _]]. discriminate.
Qed.

(** C1 (as the code has it): a clue of the loaded story is listed exactly
    when its round has been reached and, if it is flagged for the murderer,
    the viewer is the murderer.  So a detective is shown the unflagged clues
    only, and a murderer every clue up to the current round. *)
Theorem clue_visibility (st : GamePlay.State) (db : Db) (c : Clue) :
  (In c (GamePlay.visibleClues st db) <->
   exists s, GamePlay.story st = Some s
     /\ In c (clues db)
     /\ clue_story_id c = story_id_ s
     /\ round_number c <= current_round (GamePlay.session st)
     /\ (is_for_murderer c = Some true
         -> role (GamePlay.player st) = murderer))
  /\ (In c (GamePlay.visibleClues st db)
      -> role (GamePlay.player st) = detective
      -> is_for_murderer c <> Some true)
  /\ (role (GamePlay.player st) = murderer
      -> (In c (GamePlay.visibleClues st db) <->
          exists s, GamePlay.story st = Some s
            /\ In c (clues db)
            /\ clue_story_id c = story_id_ s
            /\ round_number c <= current_round (GamePlay.session st))).
Proof.
  assert (main :
    In c (GamePlay.visibleClues st db) <->
    exists s, GamePlay.story st = Some s
      /\ In c (clues db)
      /\ clue_story_id c = story_id_ s
      /\ round_number c <= current_round (GamePlay.session st)
      /\ (is_for_murderer c = Some true
          -> role (GamePlay.player st) = murderer)).
  { rewrite visibleClues_In. unfold GamePlay.cluesData.
    split; intros [s H]; exists s.
    - destruct H as [E [H V]]. apply filter_In in H. destruct H as [H B].
      apply andb_true_iff in B. destruct B as [B1 B2].
      apply str_eq_true in B1. apply isVisible_spec in V. tauto.
    - destruct H as [E [H [S [R M]]]]. split; [exact E|]. split.
      + apply filter_In. split; [exact H|].
        apply andb_true_iff. split; [apply str_eq_true; exact S|].
        apply Z.leb_le. exact R.
      + apply isVisible_spec. tauto. }
  split; [exact main|]. split.
  - intros H D F. apply main in H. destruct H as [s [_ [_ [_ [_ M]]]]].
    specialize (M F). congruence.
  - intros M. rewrite main. split; intros [s H]; exists s; tauto.
Qed.

(** C1 (as stated) fails: a viewer with the murderer role is shown a clue
    whose [is_for_murderer] is [false], and the detective at the same table
    is shown that clue too, so the two lists are not disjoint. *)
Lemma clue_streams_overlap :
  let murderer_page :=
    GamePlay.mkState Sample.playing Sample.p2m (mkUser "u2")
                     (Some Sample.manor) in
  let detective_page :=
    GamePlay.mkState Sample.playing Sample.p1 (mkUser "u1")
                     (Some Sample.manor) in
  let db := Sample.tables Sample.playing [Sample.p1; Sample.p2m] [] in
  role (GamePlay.player murderer_page) = murderer
  /\ is_for_murderer Sample.public_clue = Some false
  /\ In Sample.public_clue (GamePlay.visibleClues murderer_page db)
  /\ In Sample.public_clue (GamePlay.visibleClues detective_page db).
Proof.
  repeat split; try reflexivity; vm_compute; auto.
Qed.

(* ------------------------------------------------------------------ *)
(** ** The sort *)

Section SortFacts.
Variable A : Type.
Variable cmp : A -> A -> Z.

Lemma insert_perm (x : A) (l : list A) :
  Permutation (x :: l) (Js.insert cmp x l).
Proof.
  induction l as [|y l IH]; simpl.
  - apply Permutation_refl.
  - destruct (cmp x y <=? 0).
    + apply Permutation_refl.
    + eapply perm_trans; [apply perm_swap|]. apply perm_skip. exact IH.
Qed.

Lemma sort_perm (l : list A) : Permutation l (Js.sort cmp l).
Proof.
  induction l as [|x l IH]; simpl.
  - apply perm_nil.
  - eapply perm_trans; [apply perm_skip; exact IH|]. apply insert_perm.
Qed.

Lemma sort_nil_inv (l : list A) : Js.sort cmp l = [] -> l = [].
Proof.
  intro H. pose proof (sort_perm l) as P. rewrite H in P.
  apply Permutation_sym, Permutation_nil in P. exact P.
Qed.

Lemma head_insert (x : A) (l : list A) :
  head (Js.insert cmp x l) =
  match head l with
  | None => Some x
  | Some y => if cmp x y <=? 0 then Some x else Some y
  end.
Proof.
  destruct l as [|y l]; simpl; [reflexivity|].
  destruct (cmp x y <=? 0); reflexivity.
Qed.

Lemma head_sort_cons (x : A) (l : list A) :
  head (Js.sort cmp (x :: l)) =
  match head (Js.sort cmp l) with
  | None => Some x
  | Some y => if cmp x y <=? 0 then Some x else Some y
  end.
Proof. simpl. apply head_insert. Qed.
End SortFacts.

Lemma index_0_head {A} (l : list A) : Js.index l 0 = head l.
Proof. destruct l; reflexivity. Qed.

Lemma head_sort_leads (es : list Tally.Entry) (e : Tally.Entry) :
  head (Js.sort Tally.by_votes_desc es) = Some e -> exists i, leads es i e.
Proof.
  revert e. induction es as [|x l IH]; intros e H.
  - discriminate.
  - rewrite head_sort_cons in H.
    destruct (head (Js.sort Tally.by_votes_desc l)) as [y|] eqn:Hy.
    + destruct (IH y eq_refl) as [i [Hi [Hmax Hbefore]]].
      unfold Tally.by_votes_desc in H.
      destruct (Z.leb_spec (Z.of_nat (Tally.voteCount y)
                            - Z.of_nat (Tally.voteCount x)) 0) as [L|L];
        injection H as <-.
      * exists 0%nat. split; [reflexivity|]. split.
        -- intros e' [<-|I]; [lia|]. specialize (Hmax e' I). lia.
        -- intros j e' Hj. lia.
      * exists (S i). split; [exact Hi|]. split.
        -- intros e' [<-|I]; [lia|]. apply Hmax, I.
        -- intros [|j] e' Hj Hn; simpl in Hn.
           ++ injection Hn as <-. lia.
           ++ apply (Hbefore j); [lia|exact Hn].
    + injection H as <-.
      destruct (Js.sort Tally.by_votes_desc l) eqn:S; [|discriminate].
      apply sort_nil_inv in S. subst l.
      exists 0%nat. split; [reflexivity|]. split.
      * intros e' [<-|[]]. lia.
      * intros j e' Hj. lia.
Qed.

Lemma leads_unique (es : list Tally.Entry) (i j : nat)
    (e e' : Tally.Entry) :
  leads es i e -> leads es j e' -> i = j /\ e = e'.
Proof.
  intros [Hi [Mi Bi]] [Hj [Mj Bj]].
  assert (i = j) as ->.
  { destruct (Nat.lt_trichotomy i j) as [L|[E|L]]; [|exact E|].
    - specialize (Bj i e L Hi).
      specialize (Mi e' (nth_error_In _ _ Hj)). lia.
    - specialize (Bi j e' L Hj).
      specialize (Mj e (nth_error_In _ _ Hi)). lia. }
  split; [reflexivity|congruence].
Qed.

Lemma leads_head_sort (es : list Tally.Entry) (i : nat) (e : Tally.Entry) :
  leads es i e -> head (Js.sort Tally.by_votes_desc es) = Some e.
Proof.
  intros L.
  destruct (head (Js.sort Tally.by_votes_desc es)) as [e0|] eqn:H.
  - destruct (head_sort_leads es H) as [i0 L0].
    destruct (leads_unique L0 L) as [_ ->]. reflexivity.
  - destruct (Js.sort Tally.by_votes_desc es) eqn:S; [|discriminate].
    apply sort_nil_inv in S. subst es.
    destruct L as [Hn _]. destruct i; discriminate.
Qed.

(** The tally is sorted: counts never rise along it. *)
Lemma insert_sorted (x : Tally.Entry) (l : list Tally.Entry) :
  StronglySorted (fun a b => (Tally.voteCount b <= Tally.voteCount a)%nat) l ->
  StronglySorted (fun a b => (Tally.voteCount b <= Tally.voteCount a)%nat)
                 (Js.insert Tally.by_votes_desc x l).
Proof.
  induction 1 as [|y l S IH F]; simpl.
  - constructor; constructor.
  - unfold Tally.by_votes_desc at 1.
    destruct (Z.leb_spec (Z.of_nat (Tally.voteCount y)
                          - Z.of_nat (Tally.voteCount x)) 0) as [L|L].
    + constructor; [constructor; assumption|].
      constructor; [lia|].
      eapply Forall_impl; [|exact F]. simpl. intros a Ha. lia.
    + constructor; [exact IH|].
      eapply Permutation_Forall; [apply insert_perm|].
      constructor; [lia|exact F].
Qed.

Lemma voteCounts_sorted (ps : list PlayerWithDetails) (vs : list Vote) :
  StronglySorted (fun a b => (Tally.voteCount b <= Tally.voteCount a)%nat)
                 (Tally.voteCounts ps vs).
Proof.
  unfold Tally.voteCounts, Js.sort.
  induction (map (fun p => Tally.mkEntry p (Tally.count_for vs p)) ps)
    as [|x l IH]; simpl.
  - constructor.
  - apply insert_sorted, IH.
Qed.

Lemma voteCounts_perm (ps : list PlayerWithDetails) (vs : list Vote) :
  Permutation (map (fun p => Tally.mkEntry p (Tally.count_for vs p)) ps)
              (Tally.voteCounts ps vs).
Proof. apply sort_perm. Qed.

(** Entries with the same count keep their listing order. *)
Lemma voteCounts_stable (ps : list PlayerWithDetails) (vs : list Vote)
    (k : nat) :
  filter (fun e => (Tally.voteCount e =? k)%nat) (Tally.voteCounts ps vs) =
  filter (fun e => (Tally.voteCount e =? k)%nat)
         (map (fun p => Tally.mkEntry p (Tally.count_for vs p)) ps).
Proof.
  unfold Tally.voteCounts, Js.sort.
  induction (map (fun p => Tally.mkEntry p (Tally.count_for vs p)) ps)
    as [|x l IH]; [reflexivity|].
  simpl fold_right. simpl filter at 2. rewrite <- IH. clear IH.
  induction (fold_right (Js.insert Tally.by_votes_desc) [] l) as [|y s IHs].
  - reflexivity.
  - simpl Js.insert. unfold Tally.by_votes_desc at 1.
    destruct (Z.leb_spec (Z.of_nat (Tally.voteCount y)
                          - Z.of_nat (Tally.voteCount x)) 0) as [L|L].
    + reflexivity.
    + simpl filter. rewrite IHs.
      destruct (Nat.eqb_spec (Tally.voteCount x) k) as [Ex|Ex];
        destruct (Nat.eqb_spec (Tally.voteCount y) k) as [Ey|Ey];
        try reflexivity.
      lia.
Qed.

(* ------------------------------------------------------------------ *)
(** ** The outcome *)

Lemma detectivesWon_head (st : GameResults.State) :
  GameResults.detectivesWon st = true <->
  exists mv, head (GameResults.voteCounts st) = Some mv
    /\ role (base (Tally.player mv)) = murderer
    /\ (1 <= Tally.voteCount mv)%nat.
Proof.
  unfold GameResults.detectivesWon, GameResults.mostVoted.
  rewrite index_0_head.
  destruct (head (GameResults.voteCounts st)) as [mv|].
  - rewrite andb_true_iff, Z.ltb_lt.
    change (player_role_eqb (role (base (Tally.player mv))) murderer)
      with (is_murderer (base (Tally.player mv))).
    rewrite is_murderer_true. split.
    + intros [R V]. exists mv. split; [reflexivity|]. split; [exact R|lia].
    + intros [mv' [E [R V]]]. injection E as <-. split; [exact R|lia].
  - split; [discriminate|]. intros [mv [E _]]. discriminate.
Qed.

Lemma leads_entries (ps : list PlayerWithDetails) (vs : list Vote)
    (i : nat) (e : Tally.Entry) :
  leads (map (fun p => Tally.mkEntry p (Tally.count_for vs p)) ps) i e <->
  exists p, e = Tally.mkEntry p (Tally.count_for vs p)
    /\ nth_error ps i = Some p
    /\ (forall q, In q ps -> (Tally.count_for vs q <= Tally.count_for vs p)%nat)
    /\ (forall j q, (j < i)%nat -> nth_error ps j = Some q
                    -> (Tally.count_for vs q < Tally.count_for vs p)%nat).
Proof.
  unfold leads. rewrite nth_error_map. split.
  - intros [Hn [Hmax Hbefore]].
    destruct (nth_error ps i) as [p|] eqn:Hp; [|discriminate].
    simpl in Hn. injection Hn as <-. exists p.
    split; [reflexivity|]. split; [reflexivity|]. split.
    + intros q Hq.
      apply (Hmax (Tally.mkEntry q (Tally.count_for vs q))).
      apply in_map_iff. exists q. auto.
    + intros j q Hj Hq.
      apply (Hbefore j (Tally.mkEntry q (Tally.count_for vs q)) Hj).
      rewrite nth_error_map, Hq. reflexivity.
  - intros [p [-> [Hp [Hmax Hbefore]]]]. rewrite Hp.
    split; [reflexivity|]. split.
    + intros e' He'. apply in_map_iff in He'.
      destruct He' as [q [<- Hq]]. simpl. apply Hmax, Hq.
    + intros j e' Hj Hn. rewrite nth_error_map in Hn.
      destruct (nth_error ps j) as [q|] eqn:Hq; [|discriminate].
      injection Hn as <-. simpl. apply (Hbefore j q Hj Hq).
Qed.

(** The outcome in terms of the counts the tally carries. *)
Lemma detectives_win_tally (st : GameResults.State) :
  (GameResults.outcome st = GameResults.DetectivesWin
   <-> GameResults.detectivesWon st = true)
  /\ (GameResults.outcome st = GameResults.MurdererWins
      <-> GameResults.detectivesWon st = false)
  /\ (GameResults.detectivesWon st = true <->
   exists mv rest, GameResults.voteCounts st = mv :: rest
     /\ role (base (Tally.player mv)) = murderer
     /\ (1 <= Tally.voteCount mv)%nat)
  /\ (GameResults.detectivesWon st = true <->
      exists i p, let n := Tally.count_for (GameResults.votes_ st) in
        nth_error (GameResults.players st) i = Some p
        /\ role (base p) = murderer
        /\ (1 <= n p)%nat
        /\ (forall q, In q (GameResults.players st) -> (n q <= n p)%nat)
        /\ (forall j q, (j < i)%nat
              -> nth_error (GameResults.players st) j = Some q
              -> (n q < n p)%nat))
  /\ (GameResults.detectivesWon st = false <->
      match GameResults.voteCounts st with
      | [] => True
      | mv :: _ => role (base (Tally.player mv)) = detective
                   \/ Tally.voteCount mv = 0%nat
      end)
  /\ (GameResults.votes_ st = [] -> GameResults.detectivesWon st = false).
Proof.
  assert (first :
    GameResults.detectivesWon st = true <->
    exists mv rest, GameResults.voteCounts st = mv :: rest
      /\ role (base (Tally.player mv)) = murderer
      /\ (1 <= Tally.voteCount mv)%nat).
  { rewrite detectivesWon_head. split.
    - intros [mv [H R]].
      destruct (GameResults.voteCounts st) as [|mv' rest]; [discriminate|].
      injection H as ->. exists mv, rest. tauto.
    - intros [mv [rest [H R]]]. exists mv. rewrite H. tauto. }
  assert (second :
    GameResults.detectivesWon st = true <->
    exists i p, let n := Tally.count_for (GameResults.votes_ st) in
      nth_error (GameResults.players st) i = Some p
      /\ role (base p) = murderer
      /\ (1 <= n p)%nat
      /\ (forall q, In q (GameResults.players st) -> (n q <= n p)%nat)
      /\ (forall j q, (j < i)%nat
            -> nth_error (GameResults.players st) j = Some q
            -> (n q < n p)%nat)).
  { rewrite detectivesWon_head.
    unfold GameResults.voteCounts, Tally.voteCounts. split.
    - intros [mv [H [R V]]]. apply head_sort_leads in H.
      destruct H as [i L]. apply leads_entries in L.
      destruct L as [p [-> [Hp [Hmax Hbefore]]]]. simpl in R, V.
      exists i, p. cbv zeta. auto.
    - intros [i [p [Hp [R [V [Hmax Hbefore]]]]]].
      exists (Tally.mkEntry p (Tally.count_for (GameResults.votes_ st) p)).
      split; [|split; [exact R|exact V]].
      apply (@leads_head_sort _ i). apply leads_entries. exists p. auto. }
  split; [|split].
  { unfold GameResults.outcome.
    destruct (GameResults.detectivesWon st); split; congruence. }
  { unfold GameResults.outcome.
    destruct (GameResults.detectivesWon st); split; congruence. }
  split; [exact first|]. split; [exact second|]. split.
  - destruct (GameResults.detectivesWon st) eqn:W.
    + destruct (proj1 first eq_refl) as [mv [rest [-> [R V]]]].
      split; [discriminate|]. intros [D|Z]; [congruence|lia].
    + split; [|reflexivity]. intros _.
      destruct (GameResults.voteCounts st) as [|mv rest] eqn:E; [exact I|].
      destruct (role (base (Tally.player mv))) eqn:R; [left; reflexivity|].
      right. destruct (Tally.voteCount mv) eqn:V; [reflexivity|].
      assert (false = true); [|discriminate].
      apply first. exists mv, rest. rewrite V. split; [reflexivity|].
      split; [exact R|lia].
  - intros Hv. destruct (GameResults.detectivesWon st) eqn:W; [|reflexivity].
    destruct (proj1 second eq_refl) as [i [p [_ [_ [V _]]]]].
    unfold Tally.count_for in V. rewrite Hv in V. simpl in V. lia.
Qed.

(** The three scenarios of the results page: 3 votes for the murderer and 2
    for a detective; 3 for a detective and 2 for the murderer; no vote. *)
Example scenario_votes :
  let ps := [Sample.d1; Sample.d2m; Sample.d3] in
  let v (n voter accused : string) := mkVote n "s1" voter accused in
  let page vs := GameResults.mkState Sample.polling ps (mkUser "u1") vs in
  GameResults.outcome
    (page [v "1" "u1" "u2"; v "2" "u3" "u2"; v "3" "u4" "u2";
           v "4" "u2" "u1"; v "5" "u5" "u1"]) = GameResults.DetectivesWin
  /\ GameResults.outcome
       (page [v "1" "u1" "u3"; v "2" "u2" "u3"; v "3" "u4" "u3";
              v "4" "u3" "u2"; v "5" "u5" "u2"]) = GameResults.MurdererWins
  /\ GameResults.outcome (page []) = GameResults.MurdererWins.
Proof. repeat split. Qed.

(** The count the tally computes for a player is the number of stored
    votes whose [accused_id] is the player's [user_id]. *)
Lemma count_for_received (vs : list Vote) (p : PlayerWithDetails) :
  Tally.count_for vs p = votes_received vs p.
Proof.
  unfold Tally.count_for, votes_received, Js.str_eq.
  induction vs as [|v vs IH]; [reflexivity|]. simpl.
  destruct (String.eqb_spec (accused_id v) (user_id (base p))) as [E|E];
    destruct (string_dec (accused_id v) (user_id (base p))) as [D|D];
    try contradiction; simpl; rewrite IH; reflexivity.
Qed.

Lemma voteCounts_entries (ps : list PlayerWithDetails) (vs : list Vote)
    (mv : Tally.Entry) :
  In mv (Tally.voteCounts ps vs) ->
  In (Tally.player mv) ps
  /\ Tally.voteCount mv = votes_received vs (Tally.player mv).
Proof.
  intro H. unfold Tally.voteCounts in H.
  eapply Permutation_in in H; [|apply Permutation_sym, sort_perm].
  apply in_map_iff in H. destruct H as [p [<- Hp]]. simpl.
  split; [exact Hp|apply count_for_received].
Qed.

(** C2: write [received p] for the number of the session's votes whose
    [accused_id] is the [user_id] of player [p]; a player has received a
    vote exactly when some stored vote accuses that player.  Every entry of
    the sorted tally is a listed player with that number as its count, and
    the player at position 0 has received at least as many votes as any
    other.  The page announces the detectives' win exactly when the player
    at position 0 holds role [murderer] and has received at least one vote:
    in terms of the players as listed, when some murderer has received at
    least one vote, no player more, and every player listed earlier fewer.
    In every other case it announces the murderer's win: the player in
    front is a detective, or has received no vote, or there is no player;
    in particular when nobody voted. *)
Theorem detectives_win_iff (st : GameResults.State) :
  let received := votes_received (GameResults.votes_ st) in
  (forall p, (1 <= received p)%nat <->
     exists v, In v (GameResults.votes_ st)
               /\ accused_id v = user_id (base p))
  /\ (GameResults.outcome st = GameResults.DetectivesWin
      <-> GameResults.detectivesWon st = true)
  /\ (GameResults.outcome st = GameResults.MurdererWins
      <-> GameResults.detectivesWon st = false)
  /\ (forall mv, In mv (GameResults.voteCounts st) ->
        In (Tally.player mv) (GameResults.players st)
        /\ Tally.voteCount mv = received (Tally.player mv))
  /\ (forall mv rest q, GameResults.voteCounts st = mv :: rest ->
        In q (GameResults.players st) ->
        (received q <= received (Tally.player mv))%nat)
  /\ (GameResults.detectivesWon st = true <->
      exists mv rest, GameResults.voteCounts st = mv :: rest
        /\ role (base (Tally.player mv)) = murderer
        /\ (1 <= received (Tally.player mv))%nat)
  /\ (GameResults.detectivesWon st = true <->
      exists i p,
        nth_error (GameResults.players st) i = Some p
        /\ role (base p) = murderer
        /\ (1 <= received p)%nat
        /\ (forall q, In q (GameResults.players st) ->
              (received q <= received p)%nat)
        /\ (forall j q, (j < i)%nat
              -> nth_error (GameResults.players st) j = Some q
              -> (received q < received p)%nat))
  /\ (GameResults.detectivesWon st = false <->
      match GameResults.voteCounts st with
      | [] => True
      | mv :: _ => role (base (Tally.player mv)) = detective
                   \/ received (Tally.player mv) = 0%nat
      end)
  /\ (GameResults.votes_ st = [] -> GameResults.detectivesWon st = false)
  /\ (GameResults.players st = [] -> GameResults.detectivesWon st = false).
Proof.
  intro received.
  destruct (detectives_win_tally st) as [A [B [C [D [E F]]]]].
  assert (Ent : forall mv, In mv (GameResults.voteCounts st) ->
            In (Tally.player mv) (GameResults.players st)
            /\ Tally.voteCount mv = received (Tally.player mv)).
  { intros mv H. apply voteCounts_entries, H. }
  assert (Cnt : forall q, Tally.count_for (GameResults.votes_ st) q
                          = received q).
  { intro q. apply count_for_received. }
  split; [|split; [exact A|split; [exact B|split; [exact Ent|]]]].
  { intro p. unfold received, votes_received.
    pose proof (count_occ_In string_dec
                  (map accused_id (GameResults.votes_ st))
                  (user_id (base p))) as K.
    unfold gt, lt in K. rewrite <- K, in_map_iff. split.
    - intros [v [Ev Iv]]. exists v. auto.
    - intros [v [Iv Ev]]. exists v. auto. }
  split; [|split; [|split; [|split; [|split; [exact F|]]]]].
  - intros mv rest q Hv Hq.
    assert (Hh : head (Js.sort Tally.by_votes_desc
                   (map (fun p => Tally.mkEntry p
                           (Tally.count_for (GameResults.votes_ st) p))
                        (GameResults.players st))) = Some mv).
    { unfold GameResults.voteCounts, Tally.voteCounts in Hv. rewrite Hv.
      reflexivity. }
    apply head_sort_leads in Hh. destruct Hh as [i L].
    apply leads_entries in L. destruct L as [p [-> [_ [Hmax _]]]]. simpl.
    rewrite <- !Cnt. apply Hmax, Hq.
  - rewrite C. split; intros [mv [rest [Hv [R V]]]]; exists mv, rest;
      (split; [exact Hv|]); (split; [exact R|]);
      destruct (Ent mv) as [_ Ec]; try (rewrite Hv; left; reflexivity);
      lia.
  - rewrite D. cbv zeta.
    split; intros [i [p [Hp [R [V [Hmax Hbefore]]]]]]; exists i, p;
      (split; [exact Hp|]); (split; [exact R|]); split.
    + rewrite <- Cnt. exact V.
    + split.
      * intros q Hq. rewrite <- !Cnt. apply Hmax, Hq.
      * intros j q Hj Hq. rewrite <- !Cnt. apply (Hbefore j q Hj Hq).
    + rewrite Cnt. exact V.
    + split.
      * intros q Hq. rewrite !Cnt. apply Hmax, Hq.
      * intros j q Hj Hq. rewrite !Cnt. apply (Hbefore j q Hj Hq).
  - rewrite E.
    destruct (GameResults.voteCounts st) as [|mv rest] eqn:Hv; [tauto|].
    destruct (Ent mv) as [_ Ec]; [left; reflexivity|]. rewrite Ec. tauto.
  - intro Hp. destruct (GameResults.detectivesWon st) eqn:W; [|reflexivity].
    destruct (proj1 D eq_refl) as [i [p [Hn _]]]. rewrite Hp in Hn.
    destruct i; discriminate.
Qed.

(* ------------------------------------------------------------------ *)
(** ** Session updates *)

Lemma single_map {A B} (f : A -> B) (l : list A) :
  Gateway.single (map f l) = option_map f (Gateway.single l).
Proof. destruct l as [|x [|y l]]; reflexivity. Qed.

Lemma session_by_id_update (sid : string)
    (patch : GameSession -> GameSession) (db : Db) :
  (forall g, session_id_ (patch g) = session_id_ g) ->
  Gateway.session_by_id (Gateway.update_session sid patch db) sid =
  option_map patch (Gateway.session_by_id db sid).
Proof.
  intros Hid. unfold Gateway.session_by_id, Gateway.update_session. simpl.
  rewrite <- single_map. f_equal.
  induction (game_sessions db) as [|g l IH]; [reflexivity|]. simpl.
  destruct (Js.str_eq (session_id_ g) sid) eqn:E.
  - rewrite Hid, E. simpl. rewrite IH. reflexivity.
  - rewrite E. exact IH.
Qed.

Lemma update_session_players_votes (sid : string)
    (patch : GameSession -> GameSession) (db : Db) :
  game_players (Gateway.update_session sid patch db) = game_players db
  /\ votes (Gateway.update_session sid patch db) = votes db.
Proof. split; reflexivity. Qed.

(** C4: when the host advances a session that is in progress, the stored
    round becomes the former round plus one, and the stored status is
    [voting] exactly when the new round equals [max_rounds]; at any other
    value, so at every smaller one, it stays [in_progress].  The round has
    grown; players and votes are untouched. *)
Theorem nextRound_advances (st : GamePlay.State) (db : Db) :
  GamePlay.isHost st = true ->
  status (GamePlay.session st) = in_progress ->
  Gateway.session_by_id db (session_id_ (GamePlay.session st))
    = Some (GamePlay.session st) ->
  let db' := fst (GamePlay.nextRound st db) in
  exists g',
    Gateway.session_by_id db' (session_id_ (GamePlay.session st)) = Some g'
    /\ current_round g' = current_round (GamePlay.session st) + 1
    /\ max_rounds g' = max_rounds (GamePlay.session st)
    /\ (status g' = voting <-> current_round g' = max_rounds g')
    /\ (current_round g' <> max_rounds g' -> status g' = in_progress)
    /\ (current_round g' < max_rounds g' -> status g' = in_progress)
    /\ current_round (GamePlay.session st) < current_round g'
    /\ game_players db' = game_players db
    /\ votes db' = votes db.
Proof.
  intros Hhost Hstatus Hrow db'. subst db'.
  unfold GamePlay.nextRound. rewrite Hhost. simpl negb. cbv iota. simpl fst.
  rewrite session_by_id_update by reflexivity. rewrite Hrow. simpl option_map.
  eexists. split; [reflexivity|]. simpl. rewrite Hstatus.
  destruct (Z.eqb_spec (current_round (GamePlay.session st) + 1)
                       (max_rounds (GamePlay.session st))) as [E|E].
  - repeat split; auto; try lia; try congruence.
  - repeat split; auto; try lia; try congruence; discriminate.
Qed.

Lemma nextRound_advances_witness :
  let st := GamePlay.mkState Sample.playing Sample.p1 (mkUser "u1")
                             (Some Sample.manor) in
  let db := Sample.tables Sample.playing [Sample.p1; Sample.p2] [] in
  exists g',
    Gateway.session_by_id (fst (GamePlay.nextRound st db)) "s1" = Some g'
    /\ current_round g' = 2.
Proof.
  intros st db.
  destruct (@nextRound_advances st db eq_refl eq_refl eq_refl)
    as [g' [H [R _]]].
  exists g'. split; [exact H|exact R].
Defined.

(** A round advance on the last round before the vote opens the vote. *)
Example nextRound_opens_vote :
  let g := mkSession "s1" "u1" "ABCD" None in_progress 2 3 "st1" in
  let st := GamePlay.mkState g Sample.p1 (mkUser "u1") (Some Sample.manor) in
  Gateway.session_by_id
    (fst (GamePlay.nextRound st (Sample.tables g [Sample.p1] []))) "s1"
  = Some (mkSession "s1" "u1" "ABCD" None voting 3 3 "st1").
Proof. reflexivity. Qed.

(* ------------------------------------------------------------------ *)
(** ** The host's guard *)

Lemma nextRound_not_host (st : GamePlay.State) (db : Db) :
  GamePlay.isHost st = false -> GamePlay.nextRound st db = (db, None).
Proof. intro H. unfold GamePlay.nextRound. rewrite H. reflexivity. Qed.

Lemma endVoting_not_host (st : VotingPhase.State) (db : Db) :
  VotingPhase.isHost st = false -> VotingPhase.endVoting st db = (db, None).
Proof. intro H. unfold VotingPhase.endVoting. rewrite H. reflexivity. Qed.

(** The start button is on the page of the host alone. *)
Lemma start_button_host_only (st : GameLobby.State) :
  GameLobby.start_button_rendered st = true <->
  host_id (GameLobby.session st) = uid (GameLobby.user st).
Proof.
  unfold GameLobby.start_button_rendered, GameLobby.isHost.
  apply str_eq_true.
Qed.

(* ------------------------------------------------------------------ *)
(** ** [Math.floor(Math.random() * n)] *)

Lemma inject_nat_pos (n : nat) :
  (0 < n)%nat -> (0 < inject_Z (Z.of_nat n))%Q.
Proof.
  intro H. change (inject_Z 0 < inject_Z (Z.of_nat n))%Q.
  rewrite <- Zlt_Qlt. lia.
Qed.

Lemma floor_random_range (r : Q) (n : nat) :
  Js.unit_interval r -> (0 < n)%nat ->
  0 <= Js.floor_random r n < Z.of_nat n.
Proof.
  intros [H0 H1] Hn. unfold Js.floor_random.
  set (q := inject_Z (Z.of_nat n)).
  assert (Hq : (0 < q)%Q) by (apply inject_nat_pos, Hn).
  split.
  - change 0 with (Qfloor 0). apply Qfloor_resp_le.
    apply Qmult_le_0_compat; [exact H0|]. apply Qlt_le_weak, Hq.
  - rewrite Zlt_Qlt. eapply Qle_lt_trans; [apply Qfloor_le|].
    fold q. setoid_replace q with (1 * q)%Q at 2 by ring.
    apply Qmult_lt_compat_r; assumption.
Qed.

(** Index [k] is drawn exactly on the interval from [k/n] to [(k+1)/n]: the
    [n] indices have intervals of the same length. *)
Lemma floor_random_interval (r : Q) (n : nat) (k : Z) :
  (0 < n)%nat ->
  Js.floor_random r n = k <->
  (inject_Z k / inject_Z (Z.of_nat n) <= r)%Q
  /\ (r < inject_Z (k + 1) / inject_Z (Z.of_nat n))%Q.
Proof.
  intros Hn. unfold Js.floor_random.
  set (q := inject_Z (Z.of_nat n)).
  assert (Hq : (0 < q)%Q) by (apply inject_nat_pos, Hn).
  split.
  - intros <-. split.
    + apply Qle_shift_div_r; [exact Hq|]. apply Qfloor_le.
    + apply Qlt_shift_div_l; [exact Hq|]. apply Qlt_floor.
  - intros [L U].
    assert (L' : (inject_Z k <= r * q)%Q).
    { setoid_replace (inject_Z k) with (inject_Z k / q * q)%Q
        by (field; intro E; rewrite E in Hq; apply (Qlt_irrefl 0), Hq).
      apply Qmult_le_compat_r; [exact L|]. apply Qlt_le_weak, Hq. }
    assert (U' : (r * q < inject_Z (k + 1))%Q).
    { setoid_replace (inject_Z (k + 1)) with (inject_Z (k + 1) / q * q)%Q
        by (field; intro E; rewrite E in Hq; apply (Qlt_irrefl 0), Hq).
      apply Qmult_lt_compat_r; assumption. }
    pose proof (Qfloor_le (r * q)) as F1.
    pose proof (Qlt_floor (r * q)) as F2.
    assert (A : Qfloor (r * q) < k + 1).
    { rewrite Zlt_Qlt. eapply Qle_lt_trans; eassumption. }
    assert (B : k < Qfloor (r * q) + 1).
    { rewrite Zlt_Qlt. eapply Qle_lt_trans; eassumption. }
    lia.
Qed.

Lemma index_in_range {A} (l : list A) (i : Z) :
  0 <= i < Z.of_nat (List.length l) -> exists x, Js.index l i = Some x.
Proof.
  intros [H0 H1]. unfold Js.index.
  destruct (Z.ltb_spec i 0) as [L|L]; [lia|].
  destruct (nth_error l (Z.to_nat i)) as [x|] eqn:E; [exists x; reflexivity|].
  apply nth_error_None in E. lia.
Qed.

Lemma index_In {A} (l : list A) (i : Z) (x : A) :
  Js.index l i = Some x -> In x l.
Proof.
  unfold Js.index. destruct (i <? 0); [discriminate|]. apply nth_error_In.
Qed.

(* ------------------------------------------------------------------ *)
(** ** Lists without repeated keys *)

Section Keys.
Variables (A : Type) (key : A -> string).

Lemma NoDup_map_filter (g : A -> bool) (l : list A) :
  NoDup (map key l) -> NoDup (map key (filter g l)).
Proof.
  induction l as [|x l IH]; simpl; intro H; [constructor|].
  inversion H as [|k ks Hk Hks]; subst.
  destruct (g x); simpl; [|apply IH, Hks].
  constructor; [|apply IH, Hks].
  intro I. apply Hk. apply in_map_iff in I. destruct I as [y [E I]].
  apply filter_In in I. apply in_map_iff. exists y. tauto.
Qed.

Lemma NoDup_map_eq (l : list A) (x y : A) :
  NoDup (map key l) -> In x l -> In y l -> key x = key y -> x = y.
Proof.
  induction l as [|z l IH]; simpl; intros H Hx Hy E; [contradiction|].
  inversion H as [|k ks Hk Hks]; subst.
  destruct Hx as [->|Hx], Hy as [->|Hy]; auto.
  - exfalso. apply Hk. rewrite E. apply in_map, Hy.
  - exfalso. apply Hk. rewrite <- E. apply in_map, Hx.
Qed.

Lemma NoDup_map_nth (l : list A) (i j : nat) (x y : A) :
  NoDup (map key l) -> nth_error l i = Some x -> nth_error l j = Some y ->
  key x = key y -> i = j.
Proof.
  intros H Hi Hj E.
  apply (proj1 (NoDup_nth_error (map key l)) H).
  - apply nth_error_Some. rewrite nth_error_map, Hi. discriminate.
  - rewrite !nth_error_map, Hi, Hj. simpl. congruence.
Qed.

Lemma one_row_per_key (l : list A) (x : A) :
  NoDup (map key l) -> In x l ->
  List.length (filter (fun y => Js.str_eq (key y) (key x)) l) = 1%nat.
Proof.
  induction l as [|z l IH]; simpl; intros H Hx; [contradiction|].
  inversion H as [|k ks Hk Hks]; subst.
  destruct Hx as [->|Hx].
  - rewrite str_eq_refl. simpl. f_equal.
    apply length_zero_iff_nil.
    destruct (filter (fun y => Js.str_eq (key y) (key x)) l) as [|y f] eqn:F;
      [reflexivity|].
    exfalso. apply Hk.
    assert (I : In y (filter (fun y => Js.str_eq (key y) (key x)) l))
      by (rewrite F; left; reflexivity).
    apply filter_In in I. destruct I as [I E]. apply str_eq_true in E.
    rewrite <- E. apply in_map, I.
  - destruct (Js.str_eq (key z) (key x)) eqn:E.
    + exfalso. apply str_eq_true in E. apply Hk. rewrite E.
      apply in_map, Hx.
    + apply IH; assumption.
Qed.
End Keys.

(* ------------------------------------------------------------------ *)
(** ** The role loop *)

Lemma assign_roles_players (m i : Z) (l : list PlayerWithDetails) (db : Db) :
  game_players (GameLobby.assign_roles m i l db)
  = map (relabel m i l) (game_players db).
Proof.
  revert i db. induction l as [|d l IH]; intros i db; simpl.
  - symmetry. apply map_id.
  - rewrite IH. simpl. rewrite map_map. reflexivity.
Qed.

Lemma assign_roles_others (m i : Z) (l : list PlayerWithDetails) (db : Db) :
  game_sessions (GameLobby.assign_roles m i l db) = game_sessions db
  /\ votes (GameLobby.assign_roles m i l db) = votes db
  /\ stories (GameLobby.assign_roles m i l db) = stories db
  /\ characters (GameLobby.assign_roles m i l db) = characters db.
Proof.
  revert i db. induction l as [|d l IH]; intros i db; simpl.
  - repeat split.
  - destruct (IH (i + 1)
               (Gateway.update_player_role (player_id (base d))
                  (if i =? m then murderer else detective) db))
      as [H1 [H2 [H3 H4]]].
    rewrite H1, H2, H3, H4. repeat split.
Qed.

Lemma relabel_keeps (m i : Z) (l : list PlayerWithDetails) (p : GamePlayer) :
  player_id (relabel m i l p) = player_id p
  /\ player_session_id (relabel m i l p) = player_session_id p
  /\ user_id (relabel m i l p) = user_id p
  /\ character_id (relabel m i l p) = character_id p.
Proof.
  revert i p. induction l as [|d l IH]; intros i p; simpl; [repeat split|].
  destruct (Js.str_eq (player_id p) (player_id (base d)));
    destruct (IH (i + 1) p) as [H1 [H2 [H3 H4]]];
    [|repeat split; assumption].
  destruct (IH (i + 1)
              (Gateway.set_role (if i =? m then murderer else detective) p))
    as [G1 [G2 [G3 G4]]].
  rewrite G1, G2, G3, G4. repeat split.
Qed.

Lemma relabel_not_listed (m i : Z) (l : list PlayerWithDetails)
    (p : GamePlayer) :
  ~ In (player_id p) (map (fun d => player_id (base d)) l) ->
  relabel m i l p = p.
Proof.
  revert i. induction l as [|d l IH]; intros i H; simpl; [reflexivity|].
  simpl in H.
  destruct (Js.str_eq (player_id p) (player_id (base d))) eqn:E.
  - apply str_eq_true in E. exfalso. apply H. left. congruence.
  - apply IH. tauto.
Qed.

Lemma relabel_listed (m i : Z) (l : list PlayerWithDetails) (k : nat)
    (d : PlayerWithDetails) (p : GamePlayer) :
  NoDup (map (fun d => player_id (base d)) l) ->
  nth_error l k = Some d ->
  player_id (base d) = player_id p ->
  role (relabel m i l p)
  = if i + Z.of_nat k =? m then murderer else detective.
Proof.
  revert i k p. induction l as [|d0 l IH]; intros i k p H Hk E.
  - destruct k; discriminate.
  - simpl in H. inversion H as [|x xs Hx Hxs]; subst. simpl.
    destruct k as [|k]; simpl in Hk.
    + injection Hk as ->. rewrite <- E, str_eq_refl.
      rewrite relabel_not_listed by (simpl; rewrite <- E; exact Hx).
      simpl. replace (i + 0) with i by lia. reflexivity.
    + assert (N : Js.str_eq (player_id p) (player_id (base d0)) = false).
      { apply str_eq_false. intro E'. apply Hx. rewrite <- E', <- E.
        apply (in_map (fun d => player_id (base d))).
        eapply nth_error_In, Hk. }
      rewrite N. rewrite (IH (i + 1) k p Hxs Hk E).
      replace (i + 1 + Z.of_nat k) with (i + Z.of_nat (S k)) by lia.
      reflexivity.
Qed.

Lemma players_of_assign_roles (m i : Z) (l : list PlayerWithDetails)
    (db : Db) (sid : string) :
  Gateway.players_of (GameLobby.assign_roles m i l db) sid
  = map (relabel m i l) (Gateway.players_of db sid).
Proof.
  unfold Gateway.players_of. rewrite assign_roles_players.
  induction (game_players db) as [|p ps IH]; [reflexivity|]. simpl.
  destruct (relabel_keeps m i l p) as [_ [-> _]].
  destruct (Js.str_eq (player_session_id p) sid); simpl; rewrite IH;
    reflexivity.
Qed.

Lemma players_of_update_session (sid' : string)
    (patch : GameSession -> GameSession) (db : Db) (sid : string) :
  Gateway.players_of (Gateway.update_session sid' patch db) sid
  = Gateway.players_of db sid.
Proof. reflexivity. Qed.

(* ------------------------------------------------------------------ *)
(** ** [startGame] *)

Lemma min_required_positive (st : GameLobby.State) :
  (forall s, GameLobby.story st = Some s -> 0 <= min_players s) ->
  1 <= GameLobby.min_required st.
Proof.
  intro H. unfold GameLobby.min_required.
  destruct (GameLobby.story st) as [s|]; [|lia].
  specialize (H s eq_refl).
  destruct (Z.eqb_spec (min_players s) 0); lia.
Qed.

Lemma startGame_proceeds
    (shuffle : list PlayerWithDetails -> list PlayerWithDetails) (r : Q)
    (st : GameLobby.State) (db : Db) :
  GameLobby.min_required st <= Z.of_nat (List.length (GameLobby.players st)) ->
  GameLobby.startGame shuffle r st db =
  (Gateway.update_session (session_id_ (GameLobby.session st))
     (Gateway.set_status_round in_progress 1)
     (GameLobby.assign_roles
        (Js.floor_random r (List.length (shuffle (GameLobby.players st)))) 0
        (shuffle (GameLobby.players st)) db),
   GameLobby.mystery_begins).
Proof.
  intro H. unfold GameLobby.startGame.
  destruct (Z.ltb_spec (Z.of_nat (List.length (GameLobby.players st)))
                       (GameLobby.min_required st)); [lia|reflexivity].
Qed.

(** The roles after the loop, on the rows of the session: the row whose id
    stands at [murdererIndex] of the shuffled list is the murderer. *)
Lemma roles_after_loop (m : Z) (l : list PlayerWithDetails)
    (rows : list GamePlayer) (chosen : PlayerWithDetails) :
  NoDup (map (fun d => player_id (base d)) l) ->
  (forall p, In p rows -> In (player_id p) (map (fun d => player_id (base d)) l)) ->
  Js.index l m = Some chosen ->
  forall p, In p rows ->
    is_murderer (relabel m 0 l p)
    = Js.str_eq (player_id p) (player_id (base chosen)).
Proof.
  intros Hnd Hcov Hm p Hp.
  unfold Js.index in Hm. destruct (Z.ltb_spec m 0) as [L|L]; [discriminate|].
  specialize (Hcov p Hp). apply in_map_iff in Hcov.
  destruct Hcov as [d [E Hd]]. apply In_nth_error in Hd.
  destruct Hd as [k Hk].
  unfold is_murderer. rewrite (@relabel_listed m 0 l k d p Hnd Hk E).
  destruct (Z.eqb_spec (0 + Z.of_nat k) m) as [K|K]; simpl.
  - symmetry. apply str_eq_true.
    assert (k = Z.to_nat m) by lia. subst k. congruence.
  - symmetry. apply str_eq_false. intro E'.
    apply K.
    assert (k = Z.to_nat m); [|lia].
    apply (@NoDup_map_nth _ (fun d => player_id (base d)) l k (Z.to_nat m)
             d chosen Hnd Hk Hm).
    congruence.
Qed.

Lemma roles_partition (rows : list GamePlayer) :
  (List.length (filter is_murderer rows)
   + List.length (filter is_detective rows))%nat = List.length rows.
Proof.
  induction rows as [|p rows IH]; [reflexivity|]. simpl.
  unfold is_murderer, is_detective in *.
  destruct (role p); simpl; lia.
Qed.

(** C3: let the lobby list the stored players of its session, row ids be
    unique and a loaded story have a non-negative [min_players].  A start
    that passes the player-count check, whatever permutation the shuffle
    returns and whatever the draw in [0, 1), leaves the session with exactly
    one murderer, every other player of the session a detective, and the
    same players as before. *)
Theorem startGame_one_murderer
    (shuffle : list PlayerWithDetails -> list PlayerWithDetails) (r : Q)
    (st : GameLobby.State) (db : Db) :
  (forall l, Permutation l (shuffle l)) ->
  Js.unit_interval r ->
  players_pk db ->
  map base (GameLobby.players st)
    = Gateway.players_of db (session_id_ (GameLobby.session st)) ->
  (forall s, GameLobby.story st = Some s -> 0 <= min_players s) ->
  GameLobby.min_required st <= Z.of_nat (List.length (GameLobby.players st)) ->
  let sid := session_id_ (GameLobby.session st) in
  let after := Gateway.players_of (fst (GameLobby.startGame shuffle r st db))
                                  sid in
  (exists m, In m after
     /\ role m = murderer
     /\ forall p, In p after -> p <> m -> role p = detective)
  /\ List.length (filter is_murderer after) = 1%nat
  /\ (List.length (filter is_detective after) + 1)%nat
     = List.length (GameLobby.players st)
  /\ map player_id after = map player_id (Gateway.players_of db sid)
  /\ map user_id after = map user_id (Gateway.players_of db sid)
  /\ map character_id after = map character_id (Gateway.players_of db sid).
Proof.
  intros Hperm Hr Hpk Hsync Hmin Hcount sid after.
  set (l := shuffle (GameLobby.players st)).
  set (m := Js.floor_random r (List.length l)).
  set (rows := Gateway.players_of db sid).
  set (key := fun d : PlayerWithDetails => player_id (base d)).
  assert (Hafter : after = map (relabel m 0 l) rows).
  { unfold after. rewrite startGame_proceeds by exact Hcount. simpl fst.
    rewrite players_of_update_session. apply players_of_assign_roles. }
  assert (Hrows : NoDup (map player_id rows)).
  { apply NoDup_map_filter. exact Hpk. }
  assert (Hkeys : Permutation (map player_id rows) (map key l)).
  { unfold rows, sid. rewrite <- Hsync, map_map.
    apply Permutation_map, Hperm. }
  assert (Hnd : NoDup (map key l)).
  { eapply Permutation_NoDup; eassumption. }
  assert (Hcov : forall p, In p rows -> In (player_id p) (map key l)).
  { intros p Hp. eapply Permutation_in; [exact Hkeys|]. apply in_map, Hp. }
  assert (Hlen : (0 < List.length l)%nat).
  { pose proof (min_required_positive st Hmin).
    pose proof (Permutation_length (Hperm (GameLobby.players st))).
    fold l in H0. lia. }
  destruct (@index_in_range _ l _ (@floor_random_range r _ Hr Hlen))
    as [chosen Hch].
  fold m in Hch.
  pose proof (@roles_after_loop m l rows chosen Hnd Hcov Hch) as Hroles.
  assert (Hin : In (player_id (base chosen)) (map player_id rows)).
  { eapply Permutation_in; [apply Permutation_sym, Hkeys|].
    apply (in_map key). eapply index_In, Hch. }
  apply in_map_iff in Hin. destruct Hin as [row [Hid Hrow]].
  assert (Hids : map player_id after = map player_id rows).
  { rewrite Hafter, map_map. apply map_ext. intro p.
    apply (relabel_keeps m 0 l p). }
  assert (Hone : List.length (filter is_murderer after) = 1%nat).
  { rewrite Hafter.
    assert (F : forall rs, (forall p, In p rs -> In p rows) ->
              List.length (filter is_murderer (map (relabel m 0 l) rs))
              = List.length
                  (filter (fun p => Js.str_eq (player_id p) (player_id row))
                          rs)).
    { induction rs as [|p rs IH]; intro Hsub; [reflexivity|].
      cbn [map filter].
      rewrite (Hroles p) by (apply Hsub; left; reflexivity). rewrite <- Hid.
      assert (IH' := IH (fun q Hq => Hsub q (or_intror Hq))).
      destruct (Js.str_eq (player_id p) (player_id row));
        cbn [List.length]; rewrite IH'; reflexivity. }
    rewrite F by auto.
    apply (@one_row_per_key _ player_id rows row Hrows Hrow). }
  split; [|split; [exact Hone|split; [|split; [exact Hids|split]]]].
  - exists (relabel m 0 l row). split; [|split].
    + rewrite Hafter. apply in_map, Hrow.
    + apply is_murderer_true. rewrite (Hroles row Hrow).
      apply str_eq_true. exact Hid.
    + intros p' Hp' Hneq. rewrite Hafter in Hp'.
      apply in_map_iff in Hp'. destruct Hp' as [p [<- Hp]].
      destruct (role (relabel m 0 l p)) eqn:R; [reflexivity|].
      exfalso. apply Hneq. f_equal.
      apply is_murderer_true in R. rewrite (Hroles p Hp) in R.
      apply str_eq_true in R.
      apply (@NoDup_map_eq _ player_id rows p row Hrows Hp Hrow). congruence.
  - pose proof (roles_partition after) as P. rewrite Hone in P.
    assert (L : List.length after = List.length (GameLobby.players st)).
    { rewrite Hafter, length_map. unfold rows, sid. rewrite <- Hsync.
      apply length_map. }
    lia.
  - rewrite Hafter, map_map. apply map_ext. intro p.
    apply (relabel_keeps m 0 l p).
  - rewrite Hafter, map_map. apply map_ext. intro p.
    apply (relabel_keeps m 0 l p).
Qed.

Ltac distinct_strings :=
  repeat (apply NoDup_cons; [simpl; intuition discriminate|]);
  apply NoDup_nil.

Lemma half_in_unit_interval : Js.unit_interval (1 # 2).
Proof. split; unfold Qle, Qlt; simpl; lia. Qed.

Lemma startGame_one_murderer_witness :
  List.length
    (filter is_murderer
       (Gateway.players_of
          (fst (GameLobby.startGame (@rev PlayerWithDetails) (1 # 2)
                  Sample.host_lobby Sample.waiting_tables)) "s1"))
  = 1%nat.
Proof.
  refine (proj1 (proj2
    (@startGame_one_murderer (@rev PlayerWithDetails) (1 # 2)
       Sample.host_lobby Sample.waiting_tables _ _ _ _ _ _))).
  - intro l. apply Permutation_rev.
  - exact half_in_unit_interval.
  - unfold players_pk. simpl. distinct_strings.
  - reflexivity.
  - intros s E. injection E as <-. apply Z.leb_le. reflexivity.
  - apply Z.leb_le. reflexivity.
Defined.

(** After [fetchGameData] the lobby lists the rows of the session that have
    a profile and a character, in storage order. *)
Lemma fetchGameData_lists (st : GameLobby.State) (db : Db) :
  map base (GameLobby.players (GameLobby.fetchGameData st db))
  = filter (has_details db (session_id_ (GameLobby.session st)))
           (Gateway.players_of db (session_id_ (GameLobby.session st))).
Proof.
  unfold GameLobby.fetchGameData, GameLobby.playersWithDetails, has_details.
  simpl.
  set (all := Gateway.players_of db (session_id_ (GameLobby.session st))).
  generalize all at 2 4. intro rs.
  induction rs as [|p rs IH]; [reflexivity|]. simpl.
  destruct (GameLobby.details db all p) as [d|] eqn:D; simpl.
  - rewrite IH. f_equal. unfold GameLobby.details in D.
    destruct (find _ _); [|discriminate].
    destruct (find _ _); [|discriminate].
    injection D as <-. reflexivity.
  - exact IH.
Qed.

Lemma fetchGameData_lists_all (st : GameLobby.State) (db : Db) :
  Forall (fun p => has_details db (session_id_ (GameLobby.session st)) p
                   = true)
         (Gateway.players_of db (session_id_ (GameLobby.session st))) ->
  map base (GameLobby.players (GameLobby.fetchGameData st db))
  = Gateway.players_of db
      (session_id_ (GameLobby.session (GameLobby.fetchGameData st db))).
Proof.
  intro H. rewrite fetchGameData_lists. simpl.
  induction H as [|p rs Hp _ IH]; [reflexivity|]. simpl.
  rewrite Hp, IH. reflexivity.
Qed.

Example host_lobby_fetched :
  GameLobby.fetchGameData Sample.host_lobby Sample.waiting_tables
  = Sample.host_lobby.
Proof. reflexivity. Qed.

(** C9: with the story loaded and fewer players listed than its
    [min_players], [startGame] shows the destructive toast "Not Enough
    Players" and writes nothing: the session row, so its [waiting] status,
    and every player's role are as before. *)
Theorem startGame_rejects_short
    (shuffle : list PlayerWithDetails -> list PlayerWithDetails) (r : Q)
    (st : GameLobby.State) (db : Db) (s : Story) :
  GameLobby.story st = Some s ->
  Z.of_nat (List.length (GameLobby.players st)) < min_players s ->
  GameLobby.startGame shuffle r st db = (db, GameLobby.not_enough_players st)
  /\ toast_title (snd (GameLobby.startGame shuffle r st db))
     = "Not Enough Players"
  /\ destructive (snd (GameLobby.startGame shuffle r st db)) = true
  /\ game_sessions (fst (GameLobby.startGame shuffle r st db))
     = game_sessions db
  /\ game_players (fst (GameLobby.startGame shuffle r st db))
     = game_players db.
Proof.
  intros Hs Hlt.
  assert (E : GameLobby.startGame shuffle r st db
              = (db, GameLobby.not_enough_players st)).
  { unfold GameLobby.startGame, GameLobby.min_required. rewrite Hs.
    destruct (Z.eqb_spec (min_players s) 0) as [Z0|Z0]; [lia|].
    destruct (Z.ltb_spec (Z.of_nat (List.length (GameLobby.players st)))
                         (min_players s)); [reflexivity|lia]. }
  rewrite E. repeat split.
Qed.

Lemma startGame_rejects_short_witness :
  GameLobby.startGame (fun l => l) 0 Sample.short_lobby
    (Sample.tables Sample.lobby [Sample.p1; Sample.p2] [])
  = (Sample.tables Sample.lobby [Sample.p1; Sample.p2] [],
     mkToast "Not Enough Players" "Need at least 3 players to start" true).
Proof.
  refine (proj1 (@startGame_rejects_short (fun l => l) 0 Sample.short_lobby
                   (Sample.tables Sample.lobby [Sample.p1; Sample.p2] [])
                   Sample.manor _ _)).
  - reflexivity.
  - apply Z.ltb_lt. reflexivity.
Defined.

(** C10: a start that passes the player-count check stores status
    [in_progress] and round 1 in one update of the session row; the row
    keeps its other columns, and the votes are untouched. *)
Theorem startGame_round_one
    (shuffle : list PlayerWithDetails -> list PlayerWithDetails) (r : Q)
    (st : GameLobby.State) (db : Db) (g : GameSession) :
  GameLobby.min_required st <= Z.of_nat (List.length (GameLobby.players st)) ->
  Gateway.session_by_id db (session_id_ (GameLobby.session st)) = Some g ->
  let db' := fst (GameLobby.startGame shuffle r st db) in
  Gateway.session_by_id db' (session_id_ (GameLobby.session st))
    = Some (Gateway.set_status_round in_progress 1 g)
  /\ (forall g', In g' (game_sessions db') ->
        session_id_ g' = session_id_ (GameLobby.session st) ->
        status g' = in_progress /\ current_round g' = 1)
  /\ votes db' = votes db.
Proof.
  intros Hcount Hrow db'. subst db'.
  rewrite startGame_proceeds by exact Hcount. simpl fst.
  set (db1 := GameLobby.assign_roles _ _ _ _).
  destruct (assign_roles_others
              (Js.floor_random r
                 (List.length (shuffle (GameLobby.players st)))) 0
              (shuffle (GameLobby.players st)) db) as [Hs [Hv _]].
  fold db1 in Hs, Hv.
  split; [|split].
  - rewrite session_by_id_update by reflexivity.
    unfold Gateway.session_by_id in *. rewrite Hs, Hrow. reflexivity.
  - intros g' Hin Hid. unfold Gateway.update_session in Hin. simpl in Hin.
    apply in_map_iff in Hin. destruct Hin as [g0 [E _]].
    destruct (Js.str_eq (session_id_ g0)
                        (session_id_ (GameLobby.session st))) eqn:T.
    + subst g'. split; reflexivity.
    + subst g'. apply str_eq_false in T. contradiction.
  - simpl. exact Hv.
Qed.

Lemma startGame_round_one_witness :
  Gateway.session_by_id
    (fst (GameLobby.startGame (fun l => l) 0 Sample.host_lobby
            Sample.waiting_tables)) "s1"
  = Some (mkSession "s1" "u1" "ABCD" (Some "pw") in_progress 1 3 "st1").
Proof.
  refine (proj1 (@startGame_round_one (fun l => l) 0 Sample.host_lobby
                   Sample.waiting_tables Sample.lobby _ _)).
  - apply Z.leb_le. reflexivity.
  - reflexivity.
Defined.

(** [startGame] itself carries no host guard: run on the lobby page of a
    guest it would assign the roles and start the session.  The page keeps
    guests out by not rendering the start button for them. *)
Theorem startGame_by_guest :
  GameLobby.isHost Sample.guest_lobby = false
  /\ GameLobby.start_button_rendered Sample.guest_lobby = false
  /\ GameLobby.startGame (fun l => l) 0 Sample.guest_lobby
       Sample.waiting_tables
     = (Sample.tables
          (mkSession "s1" "u1" "ABCD" (Some "pw") in_progress 1 3 "st1")
          [mkPlayer "p1" "s1" "u1" "ch1" murderer; Sample.p2; Sample.p3] [],
        GameLobby.mystery_begins).
Proof. repeat split. Qed.

(* ------------------------------------------------------------------ *)
(** ** [joinGame] *)

Lemma not_taken (c : Character) (taken : list string) :
  negb (existsb (Js.str_eq (character_id_ c)) taken) = true ->
  ~ In (character_id_ c) taken.
Proof.
  intros H I. apply negb_true_iff in H.
  assert (T : existsb (Js.str_eq (character_id_ c)) taken = true).
  { apply existsb_exists. exists (character_id_ c). split; [exact I|].
    apply str_eq_refl. }
  congruence.
Qed.

Lemma availableCharacters_In (db : Db) (s : GameSession)
    (players : list GamePlayer) (c : Character) :
  In c (JoinGameModal.availableCharacters db s players) <->
  In c (characters db)
  /\ character_story_id c = session_story_id s
  /\ ~ In (character_id_ c) (map character_id players).
Proof.
  unfold JoinGameModal.availableCharacters.
  rewrite !filter_In, str_eq_true. split.
  - intros [[H S] T]. apply not_taken in T. tauto.
  - intros [H [S T]]. split; [tauto|].
    apply negb_true_iff.
    destruct (existsb (Js.str_eq (character_id_ c)) (map character_id players))
      eqn:X; [|reflexivity].
    apply existsb_exists in X. destruct X as [t [I E]].
    apply str_eq_true in E. subst t. contradiction.
Qed.

(** The ways [joinGame] can end. *)
Lemma joinGame_cases (r : Q) (verdict : Verdict)
    (st : JoinGameModal.State) (db : Db) :
  let res := JoinGameModal.joinGame r verdict st db in
  (JoinGameModal.db_after res = db
     /\ destructive (JoinGameModal.toast res) = true
     /\ JoinGameModal.joined res = None)
  \/ (exists s p,
        JoinGameModal.find_session db (JoinGameModal.sessionCode st) = Some s
        /\ JoinGameModal.existingPlayer db s (JoinGameModal.user st) = Some p
        /\ res = JoinGameModal.mkResult db JoinGameModal.already_joined
                   (Some (s, p)))
  \/ (exists s c new_id,
        JoinGameModal.find_session db (JoinGameModal.sessionCode st) = Some s
        /\ JoinGameModal.existingPlayer db s (JoinGameModal.user st) = None
        /\ status s = waiting
        /\ In c (JoinGameModal.availableCharacters db s
                   (Gateway.players_of db (session_id_ s)))
        /\ verdict = Accepted new_id
        /\ let p := mkPlayer new_id (session_id_ s)
                      (uid (JoinGameModal.user st)) (character_id_ c)
                      detective in
           res = JoinGameModal.mkResult (Gateway.insert_player p db)
                   JoinGameModal.investigation_joined (Some (s, p))).
Proof.
  intro res. subst res. unfold JoinGameModal.joinGame.
  destruct (Js.blank _); [left; repeat split|].
  destruct (JoinGameModal.find_session _ _) as [s|]; [|left; repeat split].
  destruct (JoinGameModal.password_mismatch _ _); [left; repeat split|].
  destruct (game_status_eqb (status s) waiting) eqn:W;
    [|left; repeat split].
  apply game_status_eqb_true in W. simpl negb. cbv iota.
  destruct (JoinGameModal.existingPlayer _ _ _) as [p|] eqn:X.
  { right; left. exists s, p. repeat split; assumption. }
  destruct (JoinGameModal.is_full _ _); [left; repeat split|].
  destruct (List.length _ =? 0)%nat; [left; repeat split|].
  destruct (Js.index _ _) as [c|] eqn:I; [|left; repeat split].
  destruct verdict as [new_id|message]; [|left; repeat split].
  right; right. exists s, c, new_id.
  repeat split; auto. eapply index_In, I.
Qed.

(** C6 (as the code has it): a join is refused with a destructive toast,
    and no row is written, when the code resolves to no session, or the
    session has a non-empty password other than the one supplied, or the
    session is not waiting, or the user is not yet a member and the players
    are as many as the story's [max_players] or more.  With the code typed
    in and the session found, a wrong password yields the toast "Incorrect
    password". *)
Theorem joinGame_rejects (r : Q) (verdict : Verdict)
    (st : JoinGameModal.State) (db : Db) :
  let code := JoinGameModal.sessionCode st in
  JoinGameModal.find_session db code = None
  \/ (exists s pw, JoinGameModal.find_session db code = Some s
        /\ password s = Some pw /\ pw <> ""
        /\ pw <> JoinGameModal.password_ st)
  \/ (exists s, JoinGameModal.find_session db code = Some s
        /\ status s <> waiting)
  \/ (exists s story, JoinGameModal.find_session db code = Some s
        /\ JoinGameModal.existingPlayer db s (JoinGameModal.user st) = None
        /\ JoinGameModal.story_of db s = Some story
        /\ max_players story
           <= Z.of_nat (List.length (Gateway.players_of db (session_id_ s)))) ->
  let res := JoinGameModal.joinGame r verdict st db in
  JoinGameModal.db_after res = db
  /\ destructive (JoinGameModal.toast res) = true
  /\ JoinGameModal.joined res = None
  /\ (Js.blank code = false ->
      forall s pw, JoinGameModal.find_session db code = Some s ->
        password s = Some pw -> pw <> "" ->
        pw <> JoinGameModal.password_ st ->
        JoinGameModal.toast res = JoinGameModal.incorrect_password).
Proof.
  intros code H res.
  assert (M : forall s pw, password s = Some pw -> pw <> "" ->
                pw <> JoinGameModal.password_ st ->
                JoinGameModal.password_mismatch s (JoinGameModal.password_ st)
                = true).
  { intros s pw P N1 N2. unfold JoinGameModal.password_mismatch. rewrite P.
    apply andb_true_iff. split.
    - destruct pw; [contradiction|reflexivity].
    - apply negb_true_iff, str_eq_false, N2. }
  assert (P4 : Js.blank code = false ->
      forall s pw, JoinGameModal.find_session db code = Some s ->
        password s = Some pw -> pw <> "" ->
        pw <> JoinGameModal.password_ st ->
        JoinGameModal.toast res = JoinGameModal.incorrect_password).
  { intros B s pw F P N1 N2. subst res. unfold JoinGameModal.joinGame.
    fold code. rewrite B, F, (M s pw P N1 N2). reflexivity. }
  cut (JoinGameModal.db_after res = db
       /\ destructive (JoinGameModal.toast res) = true
       /\ JoinGameModal.joined res = None); [tauto|].
  clear P4. subst res. unfold JoinGameModal.joinGame. fold code.
  destruct (Js.blank code); [repeat split|].
  destruct H as [F|[[s [pw [F [P [N1 N2]]]]]|[[s [F W]]|[s [y [F [X [S L]]]]]]]];
    rewrite F; [repeat split| | |].
  - rewrite (M s pw P N1 N2). repeat split.
  - destruct (JoinGameModal.password_mismatch _ _); [repeat split|].
    destruct (game_status_eqb (status s) waiting) eqn:E.
    + apply game_status_eqb_true in E. contradiction.
    + repeat split.
  - destruct (JoinGameModal.password_mismatch _ _); [repeat split|].
    destruct (game_status_eqb (status s) waiting); [|repeat split].
    simpl negb. cbv iota. rewrite X.
    unfold JoinGameModal.is_full. rewrite S.
    destruct (Z.leb_spec (max_players y)
                (Z.of_nat (List.length
                             (Gateway.players_of db (session_id_ s)))));
      [repeat split|lia].
Qed.

Lemma joinGame_rejects_witness :
  JoinGameModal.joinGame 0 (Accepted "p9")
    (JoinGameModal.mkState "abcd" "guess" (mkUser "u9")) Sample.open_tables
  = JoinGameModal.mkResult Sample.open_tables
      JoinGameModal.incorrect_password None.
Proof.
  destruct (@joinGame_rejects 0 (Accepted "p9")
              (JoinGameModal.mkState "abcd" "guess" (mkUser "u9"))
              Sample.open_tables) as [H1 [_ [H3 H4]]].
  - right; left. exists Sample.lobby, "pw".
    repeat split; [discriminate|discriminate].
  - specialize (H4 eq_refl Sample.lobby "pw" eq_refl eq_refl).
    destruct (JoinGameModal.joinGame 0 (Accepted "p9")
                (JoinGameModal.mkState "abcd" "guess" (mkUser "u9"))
                Sample.open_tables) as [d t j].
    simpl in H1, H3, H4. subst d j. rewrite H4; [reflexivity| |];
      discriminate.
Defined.

(** C6 (as stated) fails: in a session whose players are as many as the
    story's [max_players], a join by one of these players is answered with
    the plain toast "Already Joined" and the page is handed the session and
    the player's row: no error. *)
Lemma join_full_session_by_member :
  let st := JoinGameModal.mkState "abcd" "pw" (mkUser "u2") in
  Z.of_nat (List.length (Gateway.players_of Sample.full_tables "s1"))
    = max_players Sample.trio
  /\ JoinGameModal.story_of Sample.full_tables Sample.lobby = Some Sample.trio
  /\ JoinGameModal.joinGame 0 (Accepted "p9") st Sample.full_tables
     = JoinGameModal.mkResult Sample.full_tables JoinGameModal.already_joined
         (Some (Sample.lobby, Sample.p2))
  /\ destructive JoinGameModal.already_joined = false.
Proof. repeat split. Qed.

(** A newcomer to the full session is turned away. *)
Example join_full_session_by_newcomer :
  JoinGameModal.joinGame 0 (Accepted "p9")
    (JoinGameModal.mkState "abcd" "pw" (mkUser "u9")) Sample.full_tables
  = JoinGameModal.mkResult Sample.full_tables JoinGameModal.game_full None.
Proof. reflexivity. Qed.


Lemma players_of_insert (p : GamePlayer) (db : Db) (sid : string) :
  Gateway.players_of (Gateway.insert_player p db) sid
  = (Gateway.players_of db sid
     ++ (if Js.str_eq (player_session_id p) sid then [p] else []))%list.
Proof.
  unfold Gateway.players_of, Gateway.insert_player. simpl.
  rewrite filter_app. simpl.
  destruct (Js.str_eq (player_session_id p) sid); reflexivity.
Qed.

Lemma insert_player_unique (p : GamePlayer) (db : Db) :
  characters_unique db ->
  ~ In (character_id p)
       (map character_id (Gateway.players_of db (player_session_id p))) ->
  characters_unique (Gateway.insert_player p db).
Proof.
  intros U N sid. rewrite players_of_insert.
  destruct (Js.str_eq (player_session_id p) sid) eqn:E.
  - apply str_eq_true in E. subst sid. rewrite map_app. simpl.
    eapply Permutation_NoDup; [apply Permutation_cons_append|].
    constructor; [exact N|apply U].
  - rewrite app_nil_r. apply U.
Qed.

Lemma joinGame_at_pool (r : Q) (verdict : Verdict)
    (st : JoinGameModal.State) (db : Db) (s : GameSession) :
  reaches_pool st db s ->
  let available :=
    JoinGameModal.availableCharacters db s
      (Gateway.players_of db (session_id_ s)) in
  JoinGameModal.joinGame r verdict st db =
  if (List.length available =? 0)%nat
  then JoinGameModal.mkResult db JoinGameModal.no_characters None
  else
    match Js.index available (Js.floor_random r (List.length available)) with
    | None => JoinGameModal.mkResult db
                (JoinGameModal.error "Cannot read properties of undefined")
                None
    | Some c =>
        match verdict with
        | Refused message =>
            JoinGameModal.mkResult db (JoinGameModal.error message) None
        | Accepted new_id =>
            let p := mkPlayer new_id (session_id_ s)
                       (uid (JoinGameModal.user st)) (character_id_ c)
                       detective in
            JoinGameModal.mkResult (Gateway.insert_player p db)
              JoinGameModal.investigation_joined (Some (s, p))
        end
    end.
Proof.
  intros [B [F [M [W [X L]]]]] available. unfold JoinGameModal.joinGame.
  rewrite B, F, M, W, X, L. reflexivity.
Qed.

(** A join keeps the characters of every session distinct; its behaviour
    at the pool [availableCharacters] computes. *)
Lemma joinGame_keeps_distinct (r : Q) (verdict : Verdict)
    (st : JoinGameModal.State) (db : Db) :
  characters_unique db ->
  let res := JoinGameModal.joinGame r verdict st db in
  let pool s := JoinGameModal.availableCharacters db s
                  (Gateway.players_of db (session_id_ s)) in
  characters_unique (JoinGameModal.db_after res)
  /\ (forall s p, JoinGameModal.joined res = Some (s, p) ->
        JoinGameModal.existingPlayer db s (JoinGameModal.user st) = None ->
        JoinGameModal.db_after res = Gateway.insert_player p db
        /\ player_session_id p = session_id_ s
        /\ role p = detective
        /\ (exists c, In c (characters db)
              /\ character_story_id c = session_story_id s
              /\ character_id p = character_id_ c)
        /\ ~ In (character_id p)
                (map character_id (Gateway.players_of db (session_id_ s))))
  /\ (forall s, reaches_pool st db s -> pool s = [] ->
        res = JoinGameModal.mkResult db JoinGameModal.no_characters None)
  /\ (forall s k c new_id, reaches_pool st db s ->
        nth_error (pool s) k = Some c -> verdict = Accepted new_id ->
        let n := inject_Z (Z.of_nat (List.length (pool s))) in
        (inject_Z (Z.of_nat k) / n <= r)%Q ->
        (r < inject_Z (Z.of_nat k + 1) / n)%Q ->
        JoinGameModal.joined res
        = Some (s, mkPlayer new_id (session_id_ s)
                     (uid (JoinGameModal.user st)) (character_id_ c)
                     detective)).
Proof.
  intros U res pool.
  assert (draw : forall s k c new_id, reaches_pool st db s ->
        nth_error (pool s) k = Some c -> verdict = Accepted new_id ->
        let n := inject_Z (Z.of_nat (List.length (pool s))) in
        (inject_Z (Z.of_nat k) / n <= r)%Q ->
        (r < inject_Z (Z.of_nat k + 1) / n)%Q ->
        JoinGameModal.joined res
        = Some (s, mkPlayer new_id (session_id_ s)
                     (uid (JoinGameModal.user st)) (character_id_ c)
                     detective)).
  { intros s k c new_id R Hk Hv n I1 I2.
    assert (Hn : (0 < List.length (pool s))%nat).
    { destruct (pool s); [destruct k; discriminate|simpl; lia]. }
    assert (I : Js.floor_random r (List.length (pool s)) = Z.of_nat k).
    { apply (floor_random_interval r (Z.of_nat k) Hn). split; assumption. }
    unfold res. rewrite (joinGame_at_pool r verdict R). fold (pool s).
    rewrite I.
    destruct (Nat.eqb_spec (List.length (pool s)) 0) as [Z0|Z0]; [lia|].
    unfold Js.index. destruct (Z.ltb_spec (Z.of_nat k) 0); [lia|].
    rewrite Nat2Z.id, Hk, Hv. reflexivity. }
  assert (empty : forall s, reaches_pool st db s -> pool s = [] ->
        res = JoinGameModal.mkResult db JoinGameModal.no_characters None).
  { intros s R P. unfold res.
    rewrite (joinGame_at_pool r verdict R). fold (pool s). rewrite P.
    reflexivity. }
  cut (characters_unique (JoinGameModal.db_after res)
       /\ (forall s p, JoinGameModal.joined res = Some (s, p) ->
        JoinGameModal.existingPlayer db s (JoinGameModal.user st) = None ->
        JoinGameModal.db_after res = Gateway.insert_player p db
        /\ player_session_id p = session_id_ s
        /\ role p = detective
        /\ (exists c, In c (characters db)
              /\ character_story_id c = session_story_id s
              /\ character_id p = character_id_ c)
        /\ ~ In (character_id p)
                (map character_id (Gateway.players_of db (session_id_ s)))));
    [tauto|].
  clear draw empty.
  destruct (joinGame_cases r verdict st db)
    as [[D [T J]]|[[s [p [F [X E]]]]|[s [c [i [F [X [W [A [V E]]]]]]]]]];
    fold res in D, T, J || fold res in E.
  - (* refused *)
    split; [rewrite D; exact U|]. intros s p J'; congruence.
  - (* a member already *)
    rewrite E. simpl.
    split; [exact U|]. intros s' p' J' X'; congruence.
  - (* a new player *)
    apply availableCharacters_In in A. destruct A as [A1 [A2 A3]].
    cbv zeta in E. rewrite E. simpl.
    split; [apply insert_player_unique; [exact U|exact A3]|].
    intros s' p' J' X'. injection J' as <- <-. simpl.
    repeat split; auto. exists c. auto.
Qed.

Lemma characters_unique_of_all (db : Db) :
  NoDup (map character_id (game_players db)) -> characters_unique db.
Proof. intros H sid. apply NoDup_map_filter, H. Qed.

Example join_keeps_distinct_sample :
  characters_unique
    (JoinGameModal.db_after
       (JoinGameModal.joinGame 0 (Accepted "p9")
          (JoinGameModal.mkState "abcd" "pw" (mkUser "u3"))
          Sample.open_tables)).
Proof.
  refine (proj1 (@joinGame_keeps_distinct 0 (Accepted "p9")
                   (JoinGameModal.mkState "abcd" "pw" (mkUser "u3"))
                   Sample.open_tables _)).
  apply characters_unique_of_all. simpl. distinct_strings.
Qed.

(** The third player of the manor is given the one character left. *)
Example join_takes_free_character :
  JoinGameModal.joined
    (JoinGameModal.joinGame (1 # 2) (Accepted "p9")
       (JoinGameModal.mkState "abcd" "pw" (mkUser "u3")) Sample.open_tables)
  = Some (Sample.lobby, mkPlayer "p9" "s1" "u3" "ch3" detective).
Proof. reflexivity. Qed.

(* ------------------------------------------------------------------ *)
(** ** [castVote] *)










(** Two clicks on ann's page: the first vote stands, the second is not
    stored. *)
Example second_vote_not_stored :
  votes (snd (VotingRoom.run
                [VotingRoom.mkClick 0 "u2" (Accepted "v1");
                 VotingRoom.mkClick 0 "u3" (Accepted "v2")]
                ([Sample.ann_votes; Sample.bob_votes],
                 Sample.polling_tables)))
  = [mkVote "v1" "s1" "u1" "u2"].
Proof. reflexivity. Qed.

(* ------------------------------------------------------------------ *)
(** ** More on the tally *)

Lemma list_sum_perm (l l' : list nat) :
  Permutation l l' -> list_sum l = list_sum l'.
Proof. induction 1; simpl; lia. Qed.

Lemma accused_once (a : string) (ps : list PlayerWithDetails) :
  NoDup (map (fun p => user_id (base p)) ps) ->
  list_sum (map (fun p => if Js.str_eq a (user_id (base p))
                          then 1%nat else 0%nat) ps)
  = if existsb (Js.str_eq a) (map (fun p => user_id (base p)) ps)
    then 1%nat else 0%nat.
Proof.
  induction ps as [|p ps IH]; simpl; intro H; [reflexivity|].
  inversion H as [|k ks Hk Hks]; subst. rewrite (IH Hks).
  destruct (Js.str_eq a (user_id (base p))) eqn:E; simpl; [|reflexivity].
  apply str_eq_true in E. subst a.
  destruct (existsb _ _) eqn:X; [|reflexivity].
  apply existsb_exists in X. destruct X as [k [I K]].
  apply str_eq_true in K. subst k. contradiction.
Qed.

Lemma count_for_cons (v : Vote) (vs : list Vote) (p : PlayerWithDetails) :
  Tally.count_for (v :: vs) p
  = ((if Js.str_eq (accused_id v) (user_id (base p)) then 1 else 0)
     + Tally.count_for vs p)%nat.
Proof.
  unfold Tally.count_for. simpl.
  destruct (Js.str_eq (accused_id v) (user_id (base p))); reflexivity.
Qed.

Lemma list_sum_map_add {A} (f g : A -> nat) (l : list A) :
  list_sum (map (fun x => (f x + g x)%nat) l)
  = (list_sum (map f l) + list_sum (map g l))%nat.
Proof. induction l as [|x l IH]; simpl; lia. Qed.

(** X1: the tally holds one entry for each listed player, with that
    player's count; the counts never rise along it; and the entries of any
    one count stand in the order in which the players are listed. *)
Theorem tally_sorted_stable (ps : list PlayerWithDetails) (vs : list Vote) :
  Permutation (map (fun p => Tally.mkEntry p (Tally.count_for vs p)) ps)
              (Tally.voteCounts ps vs)
  /\ StronglySorted
       (fun a b => (Tally.voteCount b <= Tally.voteCount a)%nat)
       (Tally.voteCounts ps vs)
  /\ (forall k,
        filter (fun e => (Tally.voteCount e =? k)%nat) (Tally.voteCounts ps vs)
        = map (fun p => Tally.mkEntry p (Tally.count_for vs p))
              (filter (fun p => (Tally.count_for vs p =? k)%nat) ps)).
Proof.
  split; [apply sort_perm|]. split.
  - unfold Tally.voteCounts, Js.sort.
    induction (map (fun p => Tally.mkEntry p (Tally.count_for vs p)) ps)
      as [|x l IH]; simpl; [constructor|apply insert_sorted, IH].
  - intro k.
    assert (S : forall es,
      filter (fun e => (Tally.voteCount e =? k)%nat)
             (Js.sort Tally.by_votes_desc es)
      = filter (fun e => (Tally.voteCount e =? k)%nat) es).
    { induction es as [|x l IH]; [reflexivity|].
      simpl Js.sort. simpl filter at 2. rewrite <- IH. clear IH.
      induction (Js.sort Tally.by_votes_desc l) as [|y s IHs];
        [reflexivity|].
      simpl Js.insert. unfold Tally.by_votes_desc at 1.
      destruct (Z.leb_spec (Z.of_nat (Tally.voteCount y)
                            - Z.of_nat (Tally.voteCount x)) 0) as [L|L];
        [reflexivity|].
      simpl filter. rewrite IHs.
      destruct (Nat.eqb_spec (Tally.voteCount x) k) as [Ex|Ex];
        destruct (Nat.eqb_spec (Tally.voteCount y) k) as [Ey|Ey];
        try reflexivity.
      lia. }
    unfold Tally.voteCounts. rewrite S. clear S.
    induction ps as [|p ps IH]; [reflexivity|]. simpl.
    destruct (Tally.count_for vs p =? k)%nat; simpl; rewrite IH; reflexivity.
Qed.

(** X2: when the listed players have distinct user ids, the counts of the
    tally add up to the number of votes that accuse a listed player; they
    never add up to more than the number of votes. *)
Theorem tally_adds_up (ps : list PlayerWithDetails) (vs : list Vote) :
  NoDup (map (fun p => user_id (base p)) ps) ->
  list_sum (map Tally.voteCount (Tally.voteCounts ps vs))
  = List.length
      (filter (fun v => existsb (Js.str_eq (accused_id v))
                                (map (fun p => user_id (base p)) ps)) vs)
  /\ (list_sum (map Tally.voteCount (Tally.voteCounts ps vs))
      <= List.length vs)%nat.
Proof.
  intro H.
  assert (E : list_sum (map Tally.voteCount (Tally.voteCounts ps vs))
              = List.length
                  (filter (fun v => existsb (Js.str_eq (accused_id v))
                             (map (fun p => user_id (base p)) ps)) vs)).
  { unfold Tally.voteCounts.
    rewrite <- (list_sum_perm
                  (Permutation_map Tally.voteCount
                     (sort_perm Tally.by_votes_desc
                        (map (fun p => Tally.mkEntry p (Tally.count_for vs p))
                             ps)))).
    rewrite map_map.
    change (list_sum (map (Tally.count_for vs) ps)
            = List.length
                (filter (fun v => existsb (Js.str_eq (accused_id v))
                           (map (fun p => user_id (base p)) ps)) vs)).
    induction vs as [|v vs IH].
    - simpl. clear H. induction ps as [|p ps IHp]; [reflexivity|exact IHp].
    - rewrite (map_ext _ _ (count_for_cons v vs)).
      rewrite list_sum_map_add, IH, (@accused_once _ ps H). simpl filter.
      destruct (existsb _ _); reflexivity. }
  split; [exact E|]. rewrite E. apply filter_length_le.
Qed.

Lemma tally_adds_up_witness :
  list_sum
    (map Tally.voteCount
       (Tally.voteCounts [Sample.d1; Sample.d2m; Sample.d3]
          [mkVote "v1" "s1" "u1" "u2"; mkVote "v2" "s1" "u3" "u2";
           mkVote "v3" "s1" "u2" "u9"]))
  = 2%nat.
Proof.
  refine (proj1 (@tally_adds_up [Sample.d1; Sample.d2m; Sample.d3]
                   [mkVote "v1" "s1" "u1" "u2"; mkVote "v2" "s1" "u3" "u2";
                    mkVote "v3" "s1" "u2" "u9"] _)).
  simpl. distinct_strings.
Defined.

(* ------------------------------------------------------------------ *)
(** ** More on the voting page *)

(** X3: a click on a player's card stores at most one vote, that of the
    page's user in the page's session against the player of the card, and
    stores none when the page knows of a vote of its user, when the card is
    the user's own, or when the gateway refuses; the votes recorded before
    stay as they are.  A stored vote never accuses its own voter. *)
Theorem card_click_no_self_vote (p : PlayerWithDetails) (verdict : Verdict)
    (st : VotingPhase.State) (db : Db) :
  let db' := snd (fst (VotingPhase.card_click p verdict st db)) in
  (VotingPhase.has_voted st = true
   \/ user_id (base p) = uid (VotingPhase.user st)
   \/ (exists message, verdict = Refused message) <-> db' = db)
  /\ (db' = db
      \/ exists new_id,
           verdict = Accepted new_id
           /\ user_id (base p) <> uid (VotingPhase.user st)
           /\ db' = Gateway.insert_vote
                      (mkVote new_id (session_id_ (VotingPhase.session st))
                              (uid (VotingPhase.user st)) (user_id (base p)))
                      db)
  /\ (forall v, In v (votes db') -> ~ In v (votes db) ->
        accused_id v <> voter_id v).
Proof.
  intro db'. subst db'.
  unfold VotingPhase.card_click, VotingPhase.canVote, VotingPhase.castVote.
  assert (G : forall v, Gateway.insert_vote v db <> db).
  { intros v E. apply (f_equal (fun d => List.length (votes d))) in E.
    simpl in E. rewrite length_app in E. simpl in E. lia. }
  destruct (VotingPhase.has_voted st) eqn:V; simpl.
  { split; [tauto|]. split; [left; reflexivity|]. intros v I N. contradiction. }
  destruct (Js.str_eq (user_id (base p)) (uid (VotingPhase.user st))) eqn:E;
    simpl.
  { apply str_eq_true in E. split; [tauto|].
    split; [left; reflexivity|]. intros v I N. contradiction. }
  apply str_eq_false in E.
  destruct verdict as [new_id|message]; simpl.
  - split; [|split].
    + split.
      * intros [H|[H|[m H]]]; [discriminate|contradiction|discriminate].
      * intro H. exfalso. apply (G _ H).
    + right. exists new_id. auto.
    + intros v I N. apply in_app_or in I.
      destruct I as [I|[<-|[]]]; [contradiction|]. simpl. exact E.
  - split; [|split].
    + split; [reflexivity|]. intros _. right; right. exists message.
      reflexivity.
    + left. reflexivity.
    + intros v I N. contradiction.
Qed.

(* ------------------------------------------------------------------ *)
(** ** More on the clue filter *)

(** X4: the list [fetchGameData] computes is monotone in the round: run on
    a page that holds the session with a round at least as high, it lists
    every clue it listed before. *)
Theorem clues_stay_visible (st : GamePlay.State) (g : GameSession) (db : Db)
    (c : Clue) :
  current_round (GamePlay.session st) <= current_round g ->
  In c (GamePlay.visibleClues st db) ->
  In c (GamePlay.visibleClues (GamePlay.on_session_update st g) db).
Proof.
  intros L H. apply visibleClues_In in H. destruct H as [s [S [I V]]].
  apply visibleClues_In. exists s. split; [exact S|].
  apply isVisible_spec in V. destruct V as [R M].
  unfold GamePlay.cluesData in *. apply filter_In in I.
  destruct I as [I B]. apply andb_true_iff in B. destruct B as [B1 B2].
  split.
  - apply filter_In. split; [exact I|]. apply andb_true_iff.
    split; [exact B1|]. simpl. apply Z.leb_le. lia.
  - apply isVisible_spec. simpl. split; [lia|exact M].
Qed.

Lemma clues_stay_visible_witness :
  In Sample.public_clue
     (GamePlay.visibleClues
        (GamePlay.on_session_update
           (GamePlay.mkState Sample.playing Sample.p1 (mkUser "u1")
                             (Some Sample.manor))
           Sample.polling)
        Sample.polling_tables).
Proof.
  refine (@clues_stay_visible
            (GamePlay.mkState Sample.playing Sample.p1 (mkUser "u1")
                              (Some Sample.manor))
            Sample.polling Sample.polling_tables Sample.public_clue _ _).
  - apply Z.leb_le. reflexivity.
  - vm_compute. auto.
Defined.

(** X5: at the same session and story, every clue listed for a viewer is
    listed for a viewer with the murderer role: the murderer is shown all
    the detectives are shown. *)
Theorem murderer_sees_detective_clues (st st' : GamePlay.State) (db : Db)
    (c : Clue) :
  GamePlay.session st' = GamePlay.session st ->
  GamePlay.story st' = GamePlay.story st ->
  role (GamePlay.player st') = murderer ->
  In c (GamePlay.visibleClues st db) ->
  In c (GamePlay.visibleClues st' db).
Proof.
  intros Es Ey M H. apply visibleClues_In in H. destruct H as [s [S [I V]]].
  apply visibleClues_In. exists s. split; [congruence|].
  apply isVisible_spec in V. destruct V as [R _]. split.
  - unfold GamePlay.cluesData in *. rewrite Es. exact I.
  - apply isVisible_spec. rewrite Es. split; [exact R|]. intros _. exact M.
Qed.

Lemma murderer_sees_detective_clues_witness :
  In Sample.public_clue
     (GamePlay.visibleClues
        (GamePlay.mkState Sample.playing Sample.p2m (mkUser "u2")
                          (Some Sample.manor))
        Sample.polling_tables).
Proof.
  refine (@murderer_sees_detective_clues
            (GamePlay.mkState Sample.playing Sample.p1 (mkUser "u1")
                              (Some Sample.manor))
            (GamePlay.mkState Sample.playing Sample.p2m (mkUser "u2")
                              (Some Sample.manor))
            Sample.polling_tables Sample.public_clue _ _ _ _).
  - reflexivity.
  - reflexivity.
  - reflexivity.
  - vm_compute. auto.
Defined.

(* ------------------------------------------------------------------ *)
(** ** More on the session row *)

Lemma session_by_id_other (sid sid' : string)
    (patch : GameSession -> GameSession) (db : Db) :
  (forall g, session_id_ (patch g) = session_id_ g) ->
  sid' <> sid ->
  Gateway.session_by_id (Gateway.update_session sid patch db) sid'
  = Gateway.session_by_id db sid'.
Proof.
  intros Hid N. unfold Gateway.session_by_id, Gateway.update_session. simpl.
  f_equal. induction (game_sessions db) as [|g l IH]; [reflexivity|]. simpl.
  destruct (Js.str_eq (session_id_ g) sid) eqn:E.
  - apply str_eq_true in E. rewrite Hid.
    assert (F : Js.str_eq (session_id_ g) sid' = false).
    { apply str_eq_false. congruence. }
    rewrite F. exact IH.
  - destruct (Js.str_eq (session_id_ g) sid'); rewrite IH; reflexivity.
Qed.

(** X6: [endVoting] on the host's page stores status [completed] in the
    row of the page's session and keeps the row's other columns, the round
    among them; every other session row, the players and the votes are as
    before. *)
Theorem endVoting_completes (st : VotingPhase.State) (db : Db)
    (g : GameSession) :
  VotingPhase.isHost st = true ->
  Gateway.session_by_id db (session_id_ (VotingPhase.session st)) = Some g ->
  let db' := fst (VotingPhase.endVoting st db) in
  Gateway.session_by_id db' (session_id_ (VotingPhase.session st))
    = Some (mkSession (session_id_ g) (host_id g) (session_code g)
                      (password g) completed (current_round g)
                      (max_rounds g) (session_story_id g))
  /\ (forall sid, sid <> session_id_ (VotingPhase.session st) ->
        Gateway.session_by_id db' sid = Gateway.session_by_id db sid)
  /\ game_players db' = game_players db
  /\ votes db' = votes db.
Proof.
  intros H R db'. subst db'. unfold VotingPhase.endVoting. rewrite H.
  simpl negb. cbv iota. simpl fst. split; [|split; [|split]].
  - rewrite session_by_id_update by reflexivity. rewrite R. reflexivity.
  - intros sid N. apply session_by_id_other; [reflexivity|exact N].
  - reflexivity.
  - reflexivity.
Qed.

Lemma endVoting_completes_witness :
  Gateway.session_by_id
    (fst (VotingPhase.endVoting Sample.ann_votes Sample.polling_tables)) "s1"
  = Some (mkSession "s1" "u1" "ABCD" (Some "pw") completed 3 3 "st1").
Proof.
  refine (proj1 (@endVoting_completes Sample.ann_votes Sample.polling_tables
                   Sample.polling _ _)).
  - reflexivity.
  - reflexivity.
Defined.

Lemma click_next_step (st : GamePlay.State) (db : Db) :
  GamePlay.isHost st = true ->
  Gateway.session_by_id db (session_id_ (GamePlay.session st))
    = Some (GamePlay.session st) ->
  let g' := Gateway.set_status_round
              (if current_round (GamePlay.session st) + 1
                  =? max_rounds (GamePlay.session st)
               then voting else status (GamePlay.session st))
              (current_round (GamePlay.session st) + 1)
              (GamePlay.session st) in
  fst (GamePlay.click_next (st, db)) = GamePlay.on_session_update st g'
  /\ Gateway.session_by_id (snd (GamePlay.click_next (st, db)))
       (session_id_ (GamePlay.session st)) = Some g'.
Proof.
  intros H R g'. unfold GamePlay.click_next. rewrite H.
  assert (E : Gateway.session_by_id (fst (GamePlay.nextRound st db))
                (session_id_ (GamePlay.session st)) = Some g').
  { unfold GamePlay.nextRound. rewrite H. simpl negb. cbv iota. simpl fst.
    rewrite session_by_id_update by reflexivity. rewrite R. reflexivity. }
  rewrite E. simpl. split; [reflexivity|exact E].
Qed.

(** X7: let the host's page hold the stored row of a session in progress
    whose round is below [max_rounds].  After [k] presses of the next-round
    button, each followed by the change of the row reaching the page, with
    the round still not beyond [max_rounds], the stored round has grown by
    [k], and the stored status is [voting] if the round has reached
    [max_rounds] and [in_progress] if not. *)
Theorem rounds_reach_vote (k : nat) (st : GamePlay.State) (db : Db) :
  GamePlay.isHost st = true ->
  status (GamePlay.session st) = in_progress ->
  Gateway.session_by_id db (session_id_ (GamePlay.session st))
    = Some (GamePlay.session st) ->
  current_round (GamePlay.session st) < max_rounds (GamePlay.session st) ->
  current_round (GamePlay.session st) + Z.of_nat k
    <= max_rounds (GamePlay.session st) ->
  let room := Nat.iter k GamePlay.click_next (st, db) in
  Gateway.session_by_id (snd room) (session_id_ (GamePlay.session st))
    = Some (GamePlay.session (fst room))
  /\ current_round (GamePlay.session (fst room))
     = current_round (GamePlay.session st) + Z.of_nat k
  /\ max_rounds (GamePlay.session (fst room))
     = max_rounds (GamePlay.session st)
  /\ status (GamePlay.session (fst room))
     = (if current_round (GamePlay.session st) + Z.of_nat k
           =? max_rounds (GamePlay.session st)
        then voting else in_progress).
Proof.
  intros Host St Row Lt.
  set (c := current_round (GamePlay.session st)).
  set (m := max_rounds (GamePlay.session st)).
  set (sid := session_id_ (GamePlay.session st)).
  assert (Inv : forall n, c + Z.of_nat n <= m ->
    let room := Nat.iter n GamePlay.click_next (st, db) in
    GamePlay.isHost (fst room) = true
    /\ session_id_ (GamePlay.session (fst room)) = sid
    /\ Gateway.session_by_id (snd room) sid
       = Some (GamePlay.session (fst room))
    /\ current_round (GamePlay.session (fst room)) = c + Z.of_nat n
    /\ max_rounds (GamePlay.session (fst room)) = m
    /\ status (GamePlay.session (fst room))
       = (if c + Z.of_nat n =? m then voting else in_progress)).
  { induction n as [|n IH]; intro Le.
    - simpl. replace (c + 0) with c by lia.
      destruct (Z.eqb_spec c m); [lia|]. repeat split; auto.
    - assert (Le' : c + Z.of_nat n <= m) by lia.
      specialize (IH Le'). cbv zeta in IH.
      change (Nat.iter (S n) GamePlay.click_next (st, db))
        with (GamePlay.click_next (Nat.iter n GamePlay.click_next (st, db))).
      destruct (Nat.iter n GamePlay.click_next (st, db)) as [st1 db1].
      simpl fst in IH. simpl snd in IH.
      destruct IH as [H1 [I1 [R1 [C1 [M1 S1]]]]].
      destruct (Z.eqb_spec (c + Z.of_nat n) m) as [E|E]; [lia|].
      rewrite <- I1 in R1.
      destruct (click_next_step st1 db1 H1 R1) as [F G].
      cbv zeta. rewrite F. rewrite I1 in G. rewrite G. simpl.
      rewrite C1, M1, S1.
      replace (c + Z.of_nat n + 1) with (c + Z.of_nat (S n)) by lia.
      unfold GamePlay.isHost in *. simpl.
      destruct (Z.eqb_spec (c + Z.of_nat (S n)) m); repeat split; auto. }
  intros Le room. destruct (Inv k Le) as [_ [_ [R [C [M S']]]]].
  fold room in R, C, M, S'. auto.
Qed.

Lemma rounds_reach_vote_witness :
  status
    (GamePlay.session
       (fst (Nat.iter 2 GamePlay.click_next
               (GamePlay.mkState Sample.playing Sample.p1 (mkUser "u1")
                                 (Some Sample.manor),
                Sample.tables Sample.playing [Sample.p1; Sample.p2] []))))
  = voting.
Proof.
  refine (proj2 (proj2 (proj2
    (@rounds_reach_vote 2
       (GamePlay.mkState Sample.playing Sample.p1 (mkUser "u1")
                         (Some Sample.manor))
       (Sample.tables Sample.playing [Sample.p1; Sample.p2] []) _ _ _ _ _)))).
  - reflexivity.
  - reflexivity.
  - reflexivity.
  - apply Z.ltb_lt. reflexivity.
  - apply Z.leb_le. reflexivity.
Defined.

(** X8: on the host's page of a session in progress that holds the stored
    row, the next-round button reads "Start Voting" exactly when pressing it
    stores status [voting]; and where the button is rendered and the round
    is not above [max_rounds], pressing it leaves the stored round not above
    [max_rounds]. *)
Theorem next_button_announces_vote (st : GamePlay.State) (db : Db) :
  GamePlay.isHost st = true ->
  status (GamePlay.session st) = in_progress ->
  Gateway.session_by_id db (session_id_ (GamePlay.session st))
    = Some (GamePlay.session st) ->
  let after :=
    Gateway.session_by_id (fst (GamePlay.nextRound st db))
      (session_id_ (GamePlay.session st)) in
  (GamePlay.next_button_label st = "Start Voting"
   <-> option_map status after = Some voting)
  /\ (GamePlay.next_button_rendered st = true ->
      current_round (GamePlay.session st) <= max_rounds (GamePlay.session st) ->
      exists g', after = Some g' /\ current_round g' <= max_rounds g').
Proof.
  intros Host St Row after. subst after.
  unfold GamePlay.nextRound. rewrite Host. simpl negb. cbv iota. simpl fst.
  rewrite session_by_id_update by reflexivity. rewrite Row. simpl option_map.
  split.
  - unfold GamePlay.next_button_label. rewrite St.
    destruct (Z.eqb_spec (current_round (GamePlay.session st))
                (max_rounds (GamePlay.session st) - 1)) as [E|E];
      destruct (Z.eqb_spec (current_round (GamePlay.session st) + 1)
                  (max_rounds (GamePlay.session st))) as [F|F];
      try lia; split; intro X; try reflexivity; discriminate.
  - intros Rn Le. eexists. split; [reflexivity|]. simpl.
    unfold GamePlay.next_button_rendered, GamePlay.isVotingRound in Rn.
    apply andb_true_iff in Rn. destruct Rn as [_ Rn].
    apply negb_true_iff, Z.eqb_neq in Rn. lia.
Qed.

Lemma next_button_announces_vote_witness :
  GamePlay.next_button_label
    (GamePlay.mkState (mkSession "s1" "u1" "ABCD" None in_progress 2 3 "st1")
                      Sample.p1 (mkUser "u1") (Some Sample.manor))
  = "Start Voting".
Proof.
  apply (proj1 (@next_button_announces_vote
    (GamePlay.mkState (mkSession "s1" "u1" "ABCD" None in_progress 2 3 "st1")
                      Sample.p1 (mkUser "u1") (Some Sample.manor))
    (Sample.tables (mkSession "s1" "u1" "ABCD" None in_progress 2 3 "st1")
                   [Sample.p1] [])
    eq_refl eq_refl eq_refl)).
  reflexivity.
Defined.

(* ------------------------------------------------------------------ *)
(** ** The page on screen *)

(** X9: the results page is on screen exactly when the lobby's copy of the
    session is [in_progress] or [voting] and GamePlay's copy is [completed].
    So it is not on screen when the two copies agree, and once the lobby's
    copy is [completed] the lobby is shown; the voting page is on screen
    exactly when the lobby's copy is under way and GamePlay's is [voting]. *)
Theorem results_page_routing (lobby : GameLobby.State)
    (play : GamePlay.State) :
  (Routing.page lobby play = Routing.Results <->
   (status (GameLobby.session lobby) = in_progress
    \/ status (GameLobby.session lobby) = voting)
   /\ status (GamePlay.session play) = completed)
  /\ (status (GameLobby.session lobby) = status (GamePlay.session play) ->
      Routing.page lobby play <> Routing.Results)
  /\ (status (GameLobby.session lobby) = completed
      \/ status (GameLobby.session lobby) = waiting ->
      Routing.page lobby play = Routing.Lobby)
  /\ (Routing.page lobby play = Routing.Voting <->
      (status (GameLobby.session lobby) = in_progress
       \/ status (GameLobby.session lobby) = voting)
      /\ status (GamePlay.session play) = voting).
Proof.
  unfold Routing.page, GameLobby.shows_gameplay, GamePlay.screen.
  destruct (status (GameLobby.session lobby));
    destruct (status (GamePlay.session play)); simpl;
    repeat split; try discriminate; try tauto; intuition discriminate.
Qed.

(* ------------------------------------------------------------------ *)
(** ** [leaveGame] *)

Lemma players_of_delete (id : string) (db : Db) (sid : string) :
  Gateway.players_of (Gateway.delete_player id db) sid
  = filter (fun p => negb (Js.str_eq (player_id p) id))
           (Gateway.players_of db sid).
Proof.
  unfold Gateway.players_of, Gateway.delete_player. simpl.
  induction (game_players db) as [|p ps IH]; [reflexivity|]. simpl.
  destruct (Js.str_eq (player_id p) id) eqn:E; simpl;
    destruct (Js.str_eq (player_session_id p) sid) eqn:F; simpl;
    rewrite ?E, ?F; simpl; rewrite IH; reflexivity.
Qed.

Lemma filter_all {A} (f : A -> bool) (l : list A) :
  (forall x, In x l -> f x = true) -> filter f l = l.
Proof.
  induction l as [|x l IH]; intro H; [reflexivity|]. simpl.
  rewrite (H x (or_introl eq_refl)). f_equal. apply IH.
  intros y I. apply H. right. exact I.
Qed.

Lemma filter_out_one_key (ps : list GamePlayer) (x : GamePlayer) :
  NoDup (map player_id ps) -> In x ps ->
  (List.length
     (filter (fun p => negb (Js.str_eq (player_id p) (player_id x))) ps) + 1)%nat
  = List.length ps.
Proof.
  intros N I.
  pose proof (@one_row_per_key _ player_id ps x N I) as One.
  assert (P : forall l : list GamePlayer,
    (List.length (filter (fun p => Js.str_eq (player_id p) (player_id x)) l)
     + List.length
         (filter (fun p => negb (Js.str_eq (player_id p) (player_id x))) l))%nat
    = List.length l).
  { induction l as [|p l IH]; [reflexivity|]. simpl.
    destruct (Js.str_eq (player_id p) (player_id x)); simpl; lia. }
  specialize (P ps). lia.
Qed.

(** X10: [leaveGame] deletes the row that bears the id of the page's player
    and no other; the session rows, so the status and the host of a session
    its host leaves, and the votes are as before.  With unique row ids and
    the page's player stored, its session counts one player less, and
    distinct characters stay distinct. *)
Theorem leaveGame_removes_own_row (st : GameLobby.State) (db : Db) :
  players_pk db ->
  In (GameLobby.player st) (game_players db) ->
  let db' := fst (GameLobby.leaveGame st db) in
  (forall p, In p (game_players db') <->
             In p (game_players db) /\ p <> GameLobby.player st)
  /\ game_sessions db' = game_sessions db
  /\ votes db' = votes db
  /\ (List.length
        (Gateway.players_of db' (player_session_id (GameLobby.player st)))
      + 1)%nat
     = List.length
         (Gateway.players_of db (player_session_id (GameLobby.player st)))
  /\ (forall sid, sid <> player_session_id (GameLobby.player st) ->
        Gateway.players_of db' sid = Gateway.players_of db sid)
  /\ players_pk db'
  /\ (characters_unique db -> characters_unique db').
Proof.
  intros Pk In0 db'. subst db'. unfold GameLobby.leaveGame. simpl fst.
  set (me := GameLobby.player st).
  split; [|split; [reflexivity|split; [reflexivity|split; [|split; [|split]]]]].
  - intro p. unfold Gateway.delete_player. simpl. rewrite filter_In.
    rewrite negb_true_iff, str_eq_false. split.
    + intros [I N]. split; [exact I|]. intro E. apply N. rewrite E.
      reflexivity.
    + intros [I N]. split; [exact I|]. intro E. apply N.
      apply (@NoDup_map_eq _ player_id (game_players db) p me Pk I In0 E).
  - rewrite players_of_delete. apply filter_out_one_key.
    + apply NoDup_map_filter, Pk.
    + unfold Gateway.players_of. apply filter_In. split; [exact In0|].
      apply str_eq_refl.
  - intros sid N. rewrite players_of_delete. apply filter_all.
    intros p I. apply negb_true_iff, str_eq_false. intro E.
    unfold Gateway.players_of in I. apply filter_In in I.
    destruct I as [I S]. apply str_eq_true in S. apply N.
    rewrite <- S. f_equal.
    apply (@NoDup_map_eq _ player_id (game_players db) p me Pk I In0 E).
  - unfold players_pk, Gateway.delete_player. simpl.
    apply NoDup_map_filter, Pk.
  - intros U sid. rewrite players_of_delete.
    apply NoDup_map_filter, U.
Qed.

Lemma leaveGame_removes_own_row_witness :
  game_players (fst (GameLobby.leaveGame Sample.guest_lobby
                       Sample.waiting_tables))
  = [Sample.p1; Sample.p3]
  /\ game_sessions (fst (GameLobby.leaveGame Sample.guest_lobby
                           Sample.waiting_tables))
     = [Sample.lobby].
Proof.
  destruct (@leaveGame_removes_own_row Sample.guest_lobby
              Sample.waiting_tables) as [_ [S _]].
  - unfold players_pk. simpl. distinct_strings.
  - simpl. auto.
  - split; [reflexivity|exact S].
Defined.

(** X11: when a player leaves, the character that player held is in the
    pool of the session's next joiner again, provided the characters of the
    session were distinct and the character is one of the session's
    story. *)
Theorem leave_frees_character (st : GameLobby.State) (db : Db)
    (s : GameSession) (c : Character) :
  characters_unique db ->
  In (GameLobby.player st) (game_players db) ->
  player_session_id (GameLobby.player st) = session_id_ s ->
  In c (characters db) ->
  character_story_id c = session_story_id s ->
  character_id_ c = character_id (GameLobby.player st) ->
  let db' := fst (GameLobby.leaveGame st db) in
  ~ In c (JoinGameModal.availableCharacters db s
            (Gateway.players_of db (session_id_ s)))
  /\ In c (JoinGameModal.availableCharacters db' s
             (Gateway.players_of db' (session_id_ s))).
Proof.
  intros U In0 Sid Ic Story Held db'. subst db'.
  set (me := GameLobby.player st) in *.
  assert (Me : In me (Gateway.players_of db (session_id_ s))).
  { unfold Gateway.players_of. apply filter_In. split; [exact In0|].
    apply str_eq_true, Sid. }
  split.
  - intro A. apply availableCharacters_In in A. destruct A as [_ [_ N]].
    apply N. rewrite Held. apply in_map, Me.
  - unfold GameLobby.leaveGame. simpl fst.
    apply availableCharacters_In. split; [exact Ic|]. split; [exact Story|].
    rewrite players_of_delete. intro I. apply in_map_iff in I.
    destruct I as [q [E Q]]. apply filter_In in Q. destruct Q as [Q N].
    apply negb_true_iff, str_eq_false in N. apply N. f_equal.
    apply (@NoDup_map_eq _ character_id
             (Gateway.players_of db (session_id_ s)) q me (U _) Q Me).
    congruence.
Qed.

Lemma leave_frees_character_witness :
  In Sample.cook
     (JoinGameModal.availableCharacters
        (fst (GameLobby.leaveGame Sample.guest_lobby Sample.waiting_tables))
        Sample.lobby
        (Gateway.players_of
           (fst (GameLobby.leaveGame Sample.guest_lobby
                   Sample.waiting_tables)) "s1")).
Proof.
  refine (proj2 (@leave_frees_character Sample.guest_lobby
                   Sample.waiting_tables Sample.lobby Sample.cook
                   _ _ _ _ _ _)).
  - apply characters_unique_of_all. simpl. distinct_strings.
  - simpl. auto.
  - reflexivity.
  - simpl. auto.
  - reflexivity.
  - reflexivity.
Defined.

(* ------------------------------------------------------------------ *)
(** ** More on [joinGame] *)

Lemma reaches_pool_unique (st : JoinGameModal.State) (db : Db)
    (s s' : GameSession) :
  reaches_pool st db s -> reaches_pool st db s' -> s = s'.
Proof. intros [_ [F _]] [_ [F' _]]. congruence. Qed.

(** [joinGame] writes a row only past the pool. *)
Lemma joinGame_writes (r : Q) (verdict : Verdict)
    (st : JoinGameModal.State) (db : Db) :
  let res := JoinGameModal.joinGame r verdict st db in
  (JoinGameModal.db_after res = db
   /\ forall s p, JoinGameModal.joined res = Some (s, p) ->
        JoinGameModal.existingPlayer db s (JoinGameModal.user st) = Some p)
  \/ (exists s c new_id,
        reaches_pool st db s
        /\ Js.index (JoinGameModal.availableCharacters db s
                       (Gateway.players_of db (session_id_ s)))
                    (Js.floor_random r
                       (List.length
                          (JoinGameModal.availableCharacters db s
                             (Gateway.players_of db (session_id_ s)))))
           = Some c
        /\ verdict = Accepted new_id
        /\ let p := mkPlayer new_id (session_id_ s)
                      (uid (JoinGameModal.user st)) (character_id_ c)
                      detective in
           res = JoinGameModal.mkResult (Gateway.insert_player p db)
                   JoinGameModal.investigation_joined (Some (s, p))).
Proof.
  intro res. subst res. unfold JoinGameModal.joinGame.
  destruct (Js.blank _) eqn:B; [left; split; [reflexivity|discriminate]|].
  destruct (JoinGameModal.find_session _ _) as [s|] eqn:F;
    [|left; split; [reflexivity|discriminate]].
  destruct (JoinGameModal.password_mismatch _ _) eqn:M;
    [left; split; [reflexivity|discriminate]|].
  destruct (game_status_eqb (status s) waiting) eqn:W;
    [|left; split; [reflexivity|discriminate]].
  apply game_status_eqb_true in W. simpl negb. cbv iota.
  destruct (JoinGameModal.existingPlayer _ _ _) as [p|] eqn:X.
  { left. split; [reflexivity|]. simpl. intros s' p' E.
    injection E as <- <-. exact X. }
  destruct (JoinGameModal.is_full _ _) eqn:L;
    [left; split; [reflexivity|discriminate]|].
  destruct (List.length _ =? 0)%nat;
    [left; split; [reflexivity|discriminate]|].
  destruct (Js.index _ _) as [c|] eqn:I;
    [|left; split; [reflexivity|discriminate]].
  destruct verdict as [new_id|message];
    [|left; split; [reflexivity|discriminate]].
  right. exists s, c, new_id. unfold reaches_pool. repeat split; auto.
Qed.

Lemma existingPlayer_after_insert (db : Db) (s : GameSession) (u : User)
    (p : GamePlayer) :
  filter (fun q => Js.str_eq (player_session_id q) (session_id_ s)
                   && Js.str_eq (user_id q) (uid u))
         (game_players db) = [] ->
  player_session_id p = session_id_ s ->
  user_id p = uid u ->
  JoinGameModal.existingPlayer (Gateway.insert_player p db) s u = Some p.
Proof.
  intros E Hs Hu. unfold JoinGameModal.existingPlayer, Gateway.insert_player.
  simpl. rewrite filter_app, E. simpl.
  rewrite Hs, Hu, !str_eq_refl. reflexivity.
Qed.

(** X12: a user without a row in the session who has joined and joins
    again, whatever the second draw and the gateway's second answer, is
    told "Already Joined" and handed the session and the very row of the
    first join; the second join writes nothing. *)
Theorem rejoin_returns_same_player (r r' : Q) (verdict verdict' : Verdict)
    (st : JoinGameModal.State) (db : Db) (s : GameSession) (p : GamePlayer) :
  JoinGameModal.joined (JoinGameModal.joinGame r verdict st db)
    = Some (s, p) ->
  filter (fun q => Js.str_eq (player_session_id q) (session_id_ s)
                   && Js.str_eq (user_id q) (uid (JoinGameModal.user st)))
         (game_players db) = [] ->
  let db1 := JoinGameModal.db_after (JoinGameModal.joinGame r verdict st db) in
  JoinGameModal.joinGame r' verdict' st db1
  = JoinGameModal.mkResult db1 JoinGameModal.already_joined (Some (s, p)).
Proof.
  intros J E db1. subst db1.
  destruct (joinGame_writes r verdict st db)
    as [[_ X]|[s0 [c [new_id [R [_ [_ Res]]]]]]].
  - specialize (X s p J). unfold JoinGameModal.existingPlayer in X.
    rewrite E in X. discriminate.
  - cbv zeta in Res. rewrite Res in J |- *. simpl in J |- *.
    injection J as <- <-.
    destruct R as [B [F [M [W [_ _]]]]].
    unfold JoinGameModal.joinGame.
    assert (F' : JoinGameModal.find_session
                   (Gateway.insert_player
                      (mkPlayer new_id (session_id_ s0)
                         (uid (JoinGameModal.user st)) (character_id_ c)
                         detective) db)
                   (JoinGameModal.sessionCode st) = Some s0) by exact F.
    rewrite B, F', M, W. simpl negb. cbv iota.
    rewrite (existingPlayer_after_insert db s0 (JoinGameModal.user st) _ E)
      by reflexivity.
    reflexivity.
Qed.

Lemma rejoin_returns_same_player_witness :
  JoinGameModal.joinGame 0 (Refused "down")
    (JoinGameModal.mkState "abcd" "pw" (mkUser "u3"))
    (JoinGameModal.db_after
       (JoinGameModal.joinGame (1 # 2) (Accepted "p9")
          (JoinGameModal.mkState "abcd" "pw" (mkUser "u3"))
          Sample.open_tables))
  = JoinGameModal.mkResult
      (JoinGameModal.db_after
         (JoinGameModal.joinGame (1 # 2) (Accepted "p9")
            (JoinGameModal.mkState "abcd" "pw" (mkUser "u3"))
            Sample.open_tables))
      JoinGameModal.already_joined
      (Some (Sample.lobby, mkPlayer "p9" "s1" "u3" "ch3" detective)).
Proof.
  refine (@rejoin_returns_same_player (1 # 2) 0 (Accepted "p9")
            (Refused "down")
            (JoinGameModal.mkState "abcd" "pw" (mkUser "u3"))
            Sample.open_tables Sample.lobby
            (mkPlayer "p9" "s1" "u3" "ch3" detective) _ _).
  - reflexivity.
  - reflexivity.
Defined.

(** X13: a join never takes a session past its story's [max_players]: if
    the resolved session held no more players than that, it holds no more
    after the join; the join adds at most one row, and none to any other
    session. *)
Theorem join_respects_capacity (r : Q) (verdict : Verdict)
    (st : JoinGameModal.State) (db : Db) (s : GameSession) (y : Story) :
  JoinGameModal.find_session db (JoinGameModal.sessionCode st) = Some s ->
  JoinGameModal.story_of db s = Some y ->
  Z.of_nat (List.length (Gateway.players_of db (session_id_ s)))
    <= max_players y ->
  let db' := JoinGameModal.db_after (JoinGameModal.joinGame r verdict st db) in
  Z.of_nat (List.length (Gateway.players_of db' (session_id_ s)))
    <= max_players y
  /\ (List.length (Gateway.players_of db' (session_id_ s))
      <= List.length (Gateway.players_of db (session_id_ s)) + 1)%nat
  /\ (forall sid, sid <> session_id_ s ->
        Gateway.players_of db' sid = Gateway.players_of db sid).
Proof.
  intros F Y Le db'. subst db'.
  destruct (joinGame_writes r verdict st db)
    as [[D _]|[s0 [c [new_id [R [_ [_ Res]]]]]]].
  - rewrite D. split; [exact Le|]. split; [lia|reflexivity].
  - cbv zeta in Res. rewrite Res. simpl.
    destruct R as [_ [F0 [_ [_ [_ L]]]]].
    assert (s0 = s) by congruence. subst s0.
    unfold JoinGameModal.is_full in L. rewrite Y in L.
    apply Z.leb_gt in L.
    split; [|split].
    + rewrite players_of_insert. simpl. rewrite str_eq_refl.
      rewrite length_app. simpl. lia.
    + rewrite players_of_insert. simpl. rewrite str_eq_refl.
      rewrite length_app. simpl. lia.
    + intros sid N. rewrite players_of_insert. simpl.
      assert (X : Js.str_eq (session_id_ s) sid = false).
      { apply str_eq_false. congruence. }
      rewrite X. apply app_nil_r.
Qed.

Lemma join_respects_capacity_witness :
  Z.of_nat
    (List.length
       (Gateway.players_of
          (JoinGameModal.db_after
             (JoinGameModal.joinGame 0 (Accepted "p9")
                (JoinGameModal.mkState "abcd" "pw" (mkUser "u9"))
                Sample.full_tables)) "s1"))
  <= 3.
Proof.
  refine (proj1 (@join_respects_capacity 0 (Accepted "p9")
                   (JoinGameModal.mkState "abcd" "pw" (mkUser "u9"))
                   Sample.full_tables Sample.lobby Sample.trio _ _ _)).
  - reflexivity.
  - reflexivity.
  - apply Z.leb_le. reflexivity.
Defined.

(** X14: with the draw in [0, 1), a join stores a row exactly when it gets
    as far as the pool, the pool is not empty and the gateway accepts the
    insert: the draw never misses the pool. *)
Theorem join_succeeds_iff (r : Q) (verdict : Verdict)
    (st : JoinGameModal.State) (db : Db) :
  Js.unit_interval r ->
  let res := JoinGameModal.joinGame r verdict st db in
  JoinGameModal.db_after res <> db
  <-> exists s new_id,
        reaches_pool st db s
        /\ JoinGameModal.availableCharacters db s
             (Gateway.players_of db (session_id_ s)) <> []
        /\ verdict = Accepted new_id.
Proof.
  intros Hr res. subst res.
  assert (G : forall p, Gateway.insert_player p db <> db).
  { intros p E. apply (f_equal (fun d => List.length (game_players d))) in E.
    simpl in E. rewrite length_app in E. simpl in E. lia. }
  split.
  - intro N.
    destruct (joinGame_writes r verdict st db)
      as [[D _]|[s [c [new_id [R [I [V _]]]]]]]; [contradiction|].
    exists s, new_id. split; [exact R|]. split; [|exact V].
    intro E. rewrite E in I. unfold Js.index in I. simpl in I.
    destruct (_ <? 0); [discriminate|].
    destruct (Z.to_nat _); discriminate.
  - intros [s [new_id [R [P V]]]].
    rewrite (joinGame_at_pool r verdict R). cbv zeta.
    set (pool := JoinGameModal.availableCharacters db s
                   (Gateway.players_of db (session_id_ s))) in *.
    assert (Hn : (0 < List.length pool)%nat).
    { destruct pool; [contradiction|simpl; lia]. }
    destruct (Nat.eqb_spec (List.length pool) 0) as [Z0|Z0]; [lia|].
    destruct (@index_in_range _ pool _ (@floor_random_range r _ Hr Hn))
      as [c Hc].
    rewrite Hc, V. simpl. apply G.
Qed.

Lemma join_succeeds_iff_witness :
  exists s new_id,
    reaches_pool (JoinGameModal.mkState "abcd" "pw" (mkUser "u3"))
                 Sample.open_tables s
    /\ JoinGameModal.availableCharacters Sample.open_tables s
         (Gateway.players_of Sample.open_tables (session_id_ s)) <> []
    /\ Accepted "p9" = Accepted new_id.
Proof.
  apply (proj1 (@join_succeeds_iff (1 # 2) (Accepted "p9")
                  (JoinGameModal.mkState "abcd" "pw" (mkUser "u3"))
                  Sample.open_tables half_in_unit_interval)).
  intro E. apply (f_equal (fun d => List.length (game_players d))) in E.
  vm_compute in E. discriminate.
Defined.

Lemma upper_ascii_idem (c : ascii) :
  Js.upper_ascii (Js.upper_ascii c) = Js.upper_ascii c.
Proof. destruct c as [[] [] [] [] [] [] [] []]; reflexivity. Qed.

Lemma is_space_upper (c : ascii) :
  Js.is_space (Js.upper_ascii c) = Js.is_space c.
Proof. destruct c as [[] [] [] [] [] [] [] []]; reflexivity. Qed.

Lemma toUpperCase_idem (s : string) :
  Js.toUpperCase (Js.toUpperCase s) = Js.toUpperCase s.
Proof.
  induction s as [|c s IH]; simpl; [reflexivity|].
  rewrite upper_ascii_idem, IH. reflexivity.
Qed.

Lemma blank_upper (s : string) : Js.blank (Js.toUpperCase s) = Js.blank s.
Proof.
  induction s as [|c s IH]; simpl; [reflexivity|].
  rewrite is_space_upper, IH. reflexivity.
Qed.

(** X15: the session code is matched without regard to the case in which
    it is typed: a join with a code and the join with that code in upper
    case end alike.  The session a join resolves has its stored code in
    upper case; a session stored with a code that is not is never found. *)
Theorem join_code_case_insensitive (r : Q) (verdict : Verdict)
    (code pw : string) (u : User) (db : Db) :
  JoinGameModal.joinGame r verdict
    (JoinGameModal.mkState (Js.toUpperCase code) pw u) db
  = JoinGameModal.joinGame r verdict (JoinGameModal.mkState code pw u) db
  /\ (forall s, JoinGameModal.find_session db code = Some s ->
        In s (game_sessions db)
        /\ session_code s = Js.toUpperCase code
        /\ Js.toUpperCase (session_code s) = session_code s).
Proof.
  split.
  - unfold JoinGameModal.joinGame, JoinGameModal.find_session. simpl.
    rewrite blank_upper, toUpperCase_idem. reflexivity.
  - intros s F. unfold JoinGameModal.find_session, Gateway.single in F.
    destruct (filter _ _) as [|x [|y l]] eqn:E; try discriminate.
    injection F as ->.
    assert (I : In s (filter (fun s0 => Js.str_eq (session_code s0)
                                          (Js.toUpperCase code))
                             (game_sessions db)))
      by (rewrite E; left; reflexivity).
    apply filter_In in I. destruct I as [I C]. apply str_eq_true in C.
    split; [exact I|]. split; [exact C|]. rewrite C. apply toUpperCase_idem.
Qed.

Example join_code_lower_case :
  JoinGameModal.joined
    (JoinGameModal.joinGame (1 # 2) (Accepted "p9")
       (JoinGameModal.mkState "aBcD" "pw" (mkUser "u3")) Sample.open_tables)
  = Some (Sample.lobby, mkPlayer "p9" "s1" "u3" "ch3" detective).
Proof. reflexivity. Qed.

(* ------------------------------------------------------------------ *)
(** ** More on [startGame] *)

(** X16: under the conditions of the start, the player made murderer is
    the one standing at index [Math.floor(r * n)] of the shuffled list: a
    player of the session is the murderer after the start exactly when its
    row bears the id of that entry. *)
Theorem startGame_murderer_is_drawn
    (shuffle : list PlayerWithDetails -> list PlayerWithDetails) (r : Q)
    (st : GameLobby.State) (db : Db) :
  (forall l, Permutation l (shuffle l)) ->
  Js.unit_interval r ->
  players_pk db ->
  map base (GameLobby.players st)
    = Gateway.players_of db (session_id_ (GameLobby.session st)) ->
  (forall s, GameLobby.story st = Some s -> 0 <= min_players s) ->
  GameLobby.min_required st <= Z.of_nat (List.length (GameLobby.players st)) ->
  let shuffled := shuffle (GameLobby.players st) in
  exists chosen,
    Js.index shuffled (Js.floor_random r (List.length shuffled)) = Some chosen
    /\ In chosen (GameLobby.players st)
    /\ forall p,
         In p (Gateway.players_of
                 (fst (GameLobby.startGame shuffle r st db))
                 (session_id_ (GameLobby.session st))) ->
         (role p = murderer <-> player_id p = player_id (base chosen)).
Proof.
  intros Hperm Hr Hpk Hsync Hmin Hcount l.
  set (m := Js.floor_random r (List.length l)).
  set (sid := session_id_ (GameLobby.session st)).
  set (rows := Gateway.players_of db sid).
  set (key := fun d : PlayerWithDetails => player_id (base d)).
  assert (Hrows : NoDup (map player_id rows)).
  { apply NoDup_map_filter. exact Hpk. }
  assert (Hkeys : Permutation (map player_id rows) (map key l)).
  { unfold rows, sid. rewrite <- Hsync, map_map.
    apply Permutation_map, Hperm. }
  assert (Hnd : NoDup (map key l)).
  { eapply Permutation_NoDup; eassumption. }
  assert (Hcov : forall p, In p rows -> In (player_id p) (map key l)).
  { intros p Hp. eapply Permutation_in; [exact Hkeys|]. apply in_map, Hp. }
  assert (Hlen : (0 < List.length l)%nat).
  { pose proof (min_required_positive st Hmin).
    pose proof (Permutation_length (Hperm (GameLobby.players st))).
    fold l in H0. lia. }
  destruct (@index_in_range _ l _ (@floor_random_range r _ Hr Hlen))
    as [chosen Hch].
  fold m in Hch. exists chosen. split; [exact Hch|]. split.
  - eapply Permutation_in; [apply Permutation_sym, Hperm|].
    eapply index_In, Hch.
  - intros p Hp.
    rewrite startGame_proceeds in Hp by exact Hcount. simpl fst in Hp.
    rewrite players_of_update_session, players_of_assign_roles in Hp.
    fold l m rows in Hp. apply in_map_iff in Hp.
    destruct Hp as [p0 [<- Hp0]].
    rewrite <- is_murderer_true.
    rewrite (@roles_after_loop m l rows chosen Hnd Hcov Hch p0 Hp0).
    rewrite str_eq_true.
    destruct (relabel_keeps m 0 l p0) as [-> _]. reflexivity.
Qed.

Lemma startGame_murderer_is_drawn_witness :
  exists chosen,
    Js.index (rev (GameLobby.players Sample.host_lobby))
      (Js.floor_random (1 # 2)
         (List.length (rev (GameLobby.players Sample.host_lobby))))
    = Some chosen
    /\ In chosen (GameLobby.players Sample.host_lobby).
Proof.
  destruct (@startGame_murderer_is_drawn (@rev PlayerWithDetails) (1 # 2)
              Sample.host_lobby Sample.waiting_tables) as [chosen [H [I _]]].
  - intro l. apply Permutation_rev.
  - exact half_in_unit_interval.
  - unfold players_pk. simpl. distinct_strings.
  - reflexivity.
  - intros s E. injection E as <-. apply Z.leb_le. reflexivity.
  - apply Z.leb_le. reflexivity.
  - exists chosen. split; assumption.
Defined.

(* ------------------------------------------------------------------ *)
(** ** The lobby's list *)

(** X17: every entry of the list [fetchGameData] builds for the lobby is
    a stored row of the page's session, joined to the stored profile whose
    id is the row's [user_id] and to a stored character whose id is the
    row's [character_id]. *)
Theorem lobby_lists_matching_details (st : GameLobby.State) (db : Db)
    (d : PlayerWithDetails) :
  In d (GameLobby.players (GameLobby.fetchGameData st db)) ->
  In (base d)
     (Gateway.players_of db (session_id_ (GameLobby.session st)))
  /\ player_session_id (base d) = session_id_ (GameLobby.session st)
  /\ In (profile d) (profiles db)
  /\ profile_id (profile d) = user_id (base d)
  /\ In (character d) (characters db)
  /\ character_id_ (character d) = character_id (base d).
Proof.
  unfold GameLobby.fetchGameData, GameLobby.playersWithDetails. simpl.
  intro H. apply in_flat_map in H. destruct H as [p [Hp Hd]].
  unfold GameLobby.details in Hd.
  destruct (find _ _) as [pr|] eqn:Fp; [|contradiction].
  destruct (find (fun c => Js.str_eq (character_id_ c) (character_id p)) _)
    as [c|] eqn:Fc; [|contradiction].
  destruct Hd as [<-|[]]. simpl.
  apply find_some in Fp. destruct Fp as [Ip Ep].
  apply find_some in Fc. destruct Fc as [Ic Ec].
  apply filter_In in Ip. apply filter_In in Ic.
  apply str_eq_true in Ep. apply str_eq_true in Ec.
  split; [exact Hp|]. split.
  - unfold Gateway.players_of in Hp. apply filter_In in Hp.
    apply str_eq_true. tauto.
  - tauto.
Qed.

Lemma lobby_lists_matching_details_witness :
  profile_id (profile Sample.d2) = user_id (base Sample.d2)
  /\ character_id_ (character Sample.d2) = character_id (base Sample.d2).
Proof.
  destruct (@lobby_lists_matching_details Sample.host_lobby
              Sample.waiting_tables Sample.d2) as [_ [_ [_ [P [_ C]]]]].
  - simpl. auto.
  - split; assumption.
Defined.

(* ------------------------------------------------------------------ *)
(** ** The dashboard *)

Lemma single_Some_In {A} (l : list A) (x : A) :
  Gateway.single l = Some x -> In x l.
Proof.
  destruct l as [|y [|z l]]; simpl; try discriminate.
  intro E. injection E as ->. left. reflexivity.
Qed.

Lemma session_by_id_of_row (db : Db) (s : GameSession) :
  NoDup (map session_id_ (game_sessions db)) ->
  In s (game_sessions db) ->
  Gateway.session_by_id db (session_id_ s) = Some s.
Proof.
  intros N I. unfold Gateway.session_by_id.
  pose proof (@one_row_per_key _ session_id_ (game_sessions db) s N I) as L.
  destruct (filter _ _) as [|x [|y l]] eqn:F; try discriminate.
  assert (Ix : In s (filter (fun g => Js.str_eq (session_id_ g)
                                        (session_id_ s))
                            (game_sessions db))).
  { apply filter_In. split; [exact I|apply str_eq_refl]. }
  rewrite F in Ix. destruct Ix as [->|[]]. reflexivity.
Qed.

Lemma active_games_none (db : Db) (u : User) (ps : list GamePlayer) :
  filter (fun q => Js.str_eq (user_id q) (uid u)) ps = [] ->
  flat_map
    (fun p =>
       if Js.str_eq (user_id p) (uid u) then
         match Gateway.session_by_id db (player_session_id p) with
         | Some g => if game_status_eqb (status g) completed then []
                     else [(p, g)]
         | None => []
         end
       else []) ps = [].
Proof.
  induction ps as [|p ps IH]; [reflexivity|]. simpl.
  destruct (Js.str_eq (user_id p) (uid u)); [discriminate|]. exact IH.
Qed.

(** X18: a user in no game who joins a session finds, when the dashboard
    is loaded anew, the lobby of that session with the row of the join:
    [checkCurrentGame] over the tables after the join sets what
    [handleGameJoined] was given.  Session ids are unique. *)
Theorem dashboard_resumes_join (r : Q) (verdict : Verdict)
    (st : JoinGameModal.State) (db : Db) (s : GameSession) (p : GamePlayer)
    (dash : GameDashboard.State) :
  JoinGameModal.joined (JoinGameModal.joinGame r verdict st db)
    = Some (s, p) ->
  NoDup (map session_id_ (game_sessions db)) ->
  filter (fun q => Js.str_eq (user_id q) (uid (JoinGameModal.user st)))
         (game_players db) = [] ->
  GameDashboard.user dash = JoinGameModal.user st ->
  let db' := JoinGameModal.db_after (JoinGameModal.joinGame r verdict st db) in
  GameDashboard.checkCurrentGame dash db'
    = GameDashboard.handleGameJoined dash s p
  /\ GameDashboard.shows_lobby (GameDashboard.checkCurrentGame dash db')
     = true.
Proof.
  intros J N E U db'. subst db'.
  destruct (joinGame_writes r verdict st db)
    as [[_ X]|[s0 [c [new_id [R [_ [_ Res]]]]]]].
  - exfalso. specialize (X s p J).
    unfold JoinGameModal.existingPlayer in X.
    apply single_Some_In in X.
    apply filter_In in X. destruct X as [I B].
    apply andb_true_iff in B. destruct B as [_ B].
    assert (I' : In p (filter (fun q => Js.str_eq (user_id q)
                                 (uid (JoinGameModal.user st)))
                              (game_players db)))
      by (apply filter_In; auto).
    rewrite E in I'. contradiction.
  - cbv zeta in Res. rewrite Res in J |- *. simpl in J |- *.
    injection J as <- <-.
    destruct R as [_ [F [_ [W _]]]].
    assert (Is : In s0 (game_sessions db)).
    { unfold JoinGameModal.find_session in F.
      apply single_Some_In in F. apply filter_In in F. tauto. }
    unfold GameDashboard.checkCurrentGame, GameDashboard.active_games,
      GameDashboard.handleGameJoined.
    simpl game_players. rewrite flat_map_app, U.
    rewrite (active_games_none _ _ _ E). simpl.
    rewrite str_eq_refl.
    change (Gateway.session_by_id
              (Gateway.insert_player
                 (mkPlayer new_id (session_id_ s0)
                    (uid (JoinGameModal.user st)) (character_id_ c) detective)
                 db) (session_id_ s0))
      with (Gateway.session_by_id db (session_id_ s0)).
    rewrite (session_by_id_of_row db s0 N Is), W. simpl.
    split; reflexivity.
Qed.

Lemma dashboard_resumes_join_witness :
  GameDashboard.checkCurrentGame
    (GameDashboard.mkState (mkUser "u3") None None)
    (JoinGameModal.db_after
       (JoinGameModal.joinGame (1 # 2) (Accepted "p9")
          (JoinGameModal.mkState "abcd" "pw" (mkUser "u3"))
          Sample.open_tables))
  = GameDashboard.mkState (mkUser "u3") (Some Sample.lobby)
      (Some (mkPlayer "p9" "s1" "u3" "ch3" detective)).
Proof.
  refine (proj1 (@dashboard_resumes_join (1 # 2) (Accepted "p9")
                   (JoinGameModal.mkState "abcd" "pw" (mkUser "u3"))
                   Sample.open_tables Sample.lobby
                   (mkPlayer "p9" "s1" "u3" "ch3" detective)
                   (GameDashboard.mkState (mkUser "u3") None None)
                   _ _ _ _)).
  - reflexivity.
  - simpl. distinct_strings.
  - reflexivity.
  - reflexivity.
Defined.

(** X19: when [checkCurrentGame] opens a lobby from the empty dashboard,
    the player is a stored row of the user, the session is the one that row
    refers to, that session is not [completed], and it is the user's only
    such game: a completed game is never resumed, and with two games under
    way none is. *)
Theorem dashboard_resumes_live_game (dash : GameDashboard.State) (db : Db) :
  GameDashboard.shows_lobby dash = false ->
  GameDashboard.shows_lobby (GameDashboard.checkCurrentGame dash db) = true ->
  exists p g,
    GameDashboard.currentPlayer (GameDashboard.checkCurrentGame dash db)
      = Some p
    /\ GameDashboard.currentSession (GameDashboard.checkCurrentGame dash db)
       = Some g
    /\ In p (game_players db)
    /\ user_id p = uid (GameDashboard.user dash)
    /\ Gateway.session_by_id db (player_session_id p) = Some g
    /\ status g <> completed
    /\ GameDashboard.active_games db (GameDashboard.user dash) = [(p, g)].
Proof.
  intros Off On. unfold GameDashboard.checkCurrentGame in *.
  destruct (GameDashboard.active_games db (GameDashboard.user dash))
    as [|[p g] [|y l]] eqn:A; simpl in On; try congruence.
  exists p, g. simpl. split; [reflexivity|]. split; [reflexivity|].
  assert (I : In (p, g)
                 (GameDashboard.active_games db (GameDashboard.user dash)))
    by (rewrite A; left; reflexivity).
  unfold GameDashboard.active_games in I. apply in_flat_map in I.
  destruct I as [q [Iq H]].
  destruct (Js.str_eq (user_id q) (uid (GameDashboard.user dash))) eqn:E;
    [|contradiction].
  destruct (Gateway.session_by_id db (player_session_id q)) as [g0|] eqn:G;
    [|contradiction].
  destruct (game_status_eqb (status g0) completed) eqn:C; [contradiction|].
  destruct H as [H|[]]. injection H as -> ->.
  apply str_eq_true in E.
  repeat split; auto.
  intro X. rewrite X in C. discriminate.
Qed.

Lemma dashboard_resumes_live_game_witness :
  exists p g,
    GameDashboard.active_games Sample.waiting_tables (mkUser "u2") = [(p, g)]
    /\ status g <> completed.
Proof.
  destruct (@dashboard_resumes_live_game
              (GameDashboard.mkState (mkUser "u2") None None)
              Sample.waiting_tables eq_refl eq_refl)
    as [p [g [_ [_ [_ [_ [_ [C A]]]]]]]].
  exists p, g. split; assumption.
Defined.

(** A finished game is not resumed. *)
Example dashboard_skips_completed :
  GameDashboard.checkCurrentGame
    (GameDashboard.mkState (mkUser "u2") None None)
    (Sample.tables
       (mkSession "s1" "u1" "ABCD" (Some "pw") completed 3 3 "st1")
       [Sample.p1; Sample.p2m; Sample.p3] [])
  = GameDashboard.mkState (mkUser "u2") None None.
Proof. reflexivity. Qed.

(* ------------------------------------------------------------------ *)
(** ** Guests and the guarded handlers *)

(** X20: on the page of a user who is not the host, the next-round button
    is not rendered, and [nextRound] and [endVoting] write nothing and show
    no toast; any number of presses of the next-round button leave the page
    and the tables as they were. *)
Theorem guests_cannot_advance (k : nat) (play : GamePlay.State)
    (poll : VotingPhase.State) (db : Db) :
  GamePlay.isHost play = false ->
  VotingPhase.isHost poll = false ->
  GamePlay.next_button_rendered play = false
  /\ GamePlay.nextRound play db = (db, None)
  /\ VotingPhase.endVoting poll db = (db, None)
  /\ Nat.iter k GamePlay.click_next (play, db) = (play, db).
Proof.
  intros Hp Hv. split; [|split; [|split]].
  - unfold GamePlay.next_button_rendered. rewrite Hp. reflexivity.
  - apply nextRound_not_host, Hp.
  - apply endVoting_not_host, Hv.
  - induction k as [|k IH]; [reflexivity|].
    change (Nat.iter (S k) GamePlay.click_next (play, db))
      with (GamePlay.click_next (Nat.iter k GamePlay.click_next (play, db))).
    rewrite IH. unfold GamePlay.click_next. rewrite Hp. reflexivity.
Qed.

Lemma guests_cannot_advance_witness :
  Nat.iter 3 GamePlay.click_next
    (GamePlay.mkState Sample.playing Sample.p2 (mkUser "u2")
                      (Some Sample.manor),
     Sample.tables Sample.playing [Sample.p1; Sample.p2] [])
  = (GamePlay.mkState Sample.playing Sample.p2 (mkUser "u2")
                      (Some Sample.manor),
     Sample.tables Sample.playing [Sample.p1; Sample.p2] []).
Proof.
  refine (proj2 (proj2 (proj2
    (@guests_cannot_advance 3
       (GamePlay.mkState Sample.playing Sample.p2 (mkUser "u2")
                         (Some Sample.manor))
       Sample.bob_votes
       (Sample.tables Sample.playing [Sample.p1; Sample.p2] []) _ _)))).
  - reflexivity.
  - reflexivity.
Defined.

(* ------------------------------------------------------------------ *)
(** ** The host's controls *)

(** C5: on the pages of a user who is not the host of the session, every
    attempt at a host-only transition leaves the tables, so the session,
    the players and the votes, as they are and shows no toast: the start
    button is not rendered, so a press on it runs nothing; a press on the
    next-round button and [nextRound] itself write nothing; and a press on
    the end-of-voting button and [endVoting] itself write nothing.  On the
    host's page the enabled start button does run [startGame]. *)
Theorem guest_attempts_rejected
    (shuffle : list PlayerWithDetails -> list PlayerWithDetails) (r : Q)
    (lobby : GameLobby.State) (play : GamePlay.State)
    (poll : VotingPhase.State) (db : Db) :
  host_id (GameLobby.session lobby) <> uid (GameLobby.user lobby) ->
  host_id (GamePlay.session play) <> uid (GamePlay.user play) ->
  host_id (VotingPhase.session poll) <> uid (VotingPhase.user poll) ->
  GameLobby.start_button_rendered lobby = false
  /\ GameLobby.press_start shuffle r lobby db = (db, None)
  /\ GamePlay.next_button_rendered play = false
  /\ GamePlay.press_next play db = (db, None)
  /\ GamePlay.nextRound play db = (db, None)
  /\ VotingPhase.end_button_rendered poll = false
  /\ VotingPhase.press_end poll db = (db, None)
  /\ VotingPhase.endVoting poll db = (db, None)
  /\ (forall host_page,
        host_id (GameLobby.session host_page)
          = uid (GameLobby.user host_page) ->
        GameLobby.min_required host_page
          <= Z.of_nat (List.length (GameLobby.players host_page)) ->
        GameLobby.press_start shuffle r host_page db
        = (fst (GameLobby.startGame shuffle r host_page db),
           Some GameLobby.mystery_begins)).
Proof.
  intros Hl Hp Hv.
  apply str_eq_false in Hl. apply str_eq_false in Hp.
  apply str_eq_false in Hv.
  assert (Lb : GameLobby.start_button_rendered lobby = false) by exact Hl.
  assert (Pb : GamePlay.next_button_rendered play = false).
  { unfold GamePlay.next_button_rendered, GamePlay.isHost. rewrite Hp.
    reflexivity. }
  assert (Vb : VotingPhase.end_button_rendered poll = false) by exact Hv.
  split; [exact Lb|]. split.
  { unfold GameLobby.press_start. rewrite Lb. reflexivity. }
  split; [exact Pb|]. split.
  { unfold GamePlay.press_next. rewrite Pb. reflexivity. }
  split; [apply nextRound_not_host, Hp|]. split; [exact Vb|]. split.
  { unfold VotingPhase.press_end. rewrite Vb. reflexivity. }
  split; [apply endVoting_not_host, Hv|].
  intros host_page Hh Hc. apply str_eq_true in Hh.
  unfold GameLobby.press_start, GameLobby.start_button_rendered,
    GameLobby.isHost, GameLobby.start_button_disabled.
  rewrite Hh.
  destruct (Z.ltb_spec (Z.of_nat (List.length (GameLobby.players host_page)))
              (GameLobby.min_required host_page)) as [L|L]; [lia|].
  simpl. rewrite (startGame_proceeds shuffle r host_page db Hc). reflexivity.
Qed.

Lemma guest_attempts_rejected_witness :
  GameLobby.press_start (fun l => l) 0 Sample.guest_lobby
    Sample.waiting_tables = (Sample.waiting_tables, None)
  /\ GameLobby.press_start (fun l => l) 0 Sample.host_lobby
       Sample.waiting_tables
     = (fst (GameLobby.startGame (fun l => l) 0 Sample.host_lobby
               Sample.waiting_tables),
        Some GameLobby.mystery_begins).
Proof.
  destruct (@guest_attempts_rejected (fun l => l) 0 Sample.guest_lobby
              (GamePlay.mkState Sample.playing Sample.p2 (mkUser "u2")
                                (Some Sample.manor))
              Sample.bob_votes Sample.waiting_tables)
    as [_ [S [_ [_ [_ [_ [_ [_ H]]]]]]]].
  - discriminate.
  - discriminate.
  - discriminate.
  - split; [exact S|]. apply (H Sample.host_lobby).
    + reflexivity.
    + apply Z.leb_le. reflexivity.
Defined.

(* ------------------------------------------------------------------ *)
(** ** The pool of free characters, and [createGame] *)








(** The host of a new game is bound a character of the story, in a session
    of its own. *)
Example createGame_sample :
  CreateGameModal.createGame (1 # 2) (Accepted "WXYZ")
    (SessionStored "s2" waiting 0) (Accepted "p7")
    (CreateGameModal.mkState (Some Sample.manor) "" (mkUser "u3"))
    Sample.open_tables
  = CreateGameModal.mkResult
      (Gateway.insert_player (mkPlayer "p7" "s2" "u3" "ch2" detective)
         (Gateway.insert_session
            (mkSession "s2" "u3" "WXYZ" None waiting 0 3 "st1")
            Sample.open_tables))
      (Some (CreateGameModal.mystery_created "WXYZ"))
      (Some (mkSession "s2" "u3" "WXYZ" None waiting 0 3 "st1",
             mkPlayer "p7" "s2" "u3" "ch2" detective)).
Proof. reflexivity. Qed.
